(** * Claudix: provider reader, change watcher and presentation host

  A shallow embedding of three services of the Claudix VS Code extension:

  - [CCSwitchService] (services/ccSwitchService.ts): read-only access to the
    provider table of the cc-switch SQLite database, and the launcher of the
    companion application;
  - [FileWatcherService] (services/fileWatcherService.ts): the debounce gate
    in front of the change callback;
  - [WebViewService] (services/webViewService.ts): the outbound message
    envelope.

  The TypeScript code is effectful: it reads the filesystem and a database,
  writes to a log, throws and catches exceptions.  Effects are modelled by a
  small state-and-exception monad over an explicit description of the host
  (the [World]).  Definitions come first, properties afterwards. *)

From Stdlib Require Import ZArith List String Ascii Bool Lia.
From Stdlib Require Import Sorted Permutation.
Import ListNotations.

Local Open Scope string_scope.
Local Open Scope list_scope.

(* ================================================================== *)
(** * JavaScript values *)
(* ================================================================== *)

Module JS.

(** The values that flow through the services untyped ([any]): what a
    column of a row object holds, the result of [JSON.parse], and the
    payload handed to the WebView.  [VNum] carries the integral numbers
    (an INTEGER column is read back as such a number). *)
#[warnings="-register-all"]
Inductive jsval : Type :=
| VUndefined
| VNull
| VBool (b : bool)
| VNum (n : Z)
| VStr (s : string)
| VArr (items : list jsval)
| VObj (fields : list (string * jsval)).

(** ToBoolean: [undefined], [null], [false], [0] and the empty string are
    falsy, every other value (objects and arrays included) is truthy. *)
Definition truthy (v : jsval) : bool :=
  match v with
  | VUndefined | VNull => false
  | VBool b => b
  | VNum n => negb (Z.eqb n 0)
  | VStr s => negb (String.eqb s "")
  | VArr _ | VObj _ => true
  end.

(** [a || b] *)
Definition js_or (a b : jsval) : jsval := if truthy a then a else b.

(** [v === n] for a number literal [n]: no coercion, so only a number
    with the same value compares equal. *)
Definition strict_eq_num (v : jsval) (n : Z) : bool :=
  match v with
  | VNum m => Z.eqb m n
  | _ => false
  end.

(** An [Error] object, reduced to its message. *)
Record JsError : Type := mkError { message : string }.

(** Completion of a synchronous call: it returns or it throws. *)
Inductive Result (A : Type) : Type :=
| Returned (a : A)
| Threw (e : JsError).
Arguments Returned {A} a.
Arguments Threw {A} e.

(** [Array.prototype.map] with a callback that may throw: the first
    exception aborts the traversal. *)
Fixpoint array_map {A B : Type} (f : A -> Result B) (l : list A)
  : Result (list B) :=
  match l with
  | [] => Returned []
  | x :: rest =>
      match f x with
      | Threw e => Threw e
      | Returned y =>
          match array_map f rest with
          | Threw e => Threw e
          | Returned ys => Returned (y :: ys)
          end
      end
  end.

(** State of a promise once it has settled. *)
Inductive Settled (A : Type) : Type :=
| Fulfilled (a : A)
| Rejected (e : JsError).
Arguments Fulfilled {A} a.
Arguments Rejected {A} e.

(** An [async] function whose body contains no [await] runs to completion
    synchronously; its promise is fulfilled with the returned value, or
    rejected with the exception the body threw. *)
Definition settle {A : Type} (r : Result A) : Settled A :=
  match r with
  | Returned a => Fulfilled a
  | Threw e => Rejected e
  end.

End JS.
Export JS.

(* ================================================================== *)
(** * The host: filesystem, SQLite driver, process launcher, log *)
(* ================================================================== *)

Module Host.

(** One row of the [providers] table, as the driver hands it back for
    [SELECT *]: the integer primary key and the remaining columns, each
    holding whatever the external tool stored ([VUndefined] when the
    table has no such column, [VNull] for SQL NULL). *)
Record Row : Type := mkRow {
  row_id : Z;
  row_name : jsval;
  row_api_key : jsval;
  row_base_url : jsval;
  row_is_active : jsval;
  row_preset : jsval;
  row_models : jsval;
  row_created_at : jsval;
  row_updated_at : jsval
}.

(** [process.platform] *)
Inductive Platform : Type :=
| aix | darwin | freebsd | linux | openbsd | sunos | win32.

(** Everything the services observe of their environment. *)
Record World : Type := mkWorld {
  platform : Platform;
  homedir : string;                        (* os.homedir() *)
  fs_exists : string -> bool;              (* fs.existsSync *)
  db_open_error : option JsError;          (* new Database(...) throws *)
  db_query_error : option JsError;         (* prepare(...).all() throws *)
  providers_table : list Row;              (* stored rows, storage order *)
  JSON_parse : jsval -> Result jsval;      (* JSON.parse, SyntaxError as Threw *)
  exec_spawn_error : option JsError;       (* exec(...) itself throws *)
  exec_exit_error : string -> option JsError (* error given to exec's callback *)
}.

Inductive Level : Type := Info | Warn | Error.

(** A log line: level, text, and the values interpolated or appended. *)
Record LogEntry : Type := mkLog {
  log_level : Level;
  log_text : string;
  log_args : list jsval
}.

(** What happened to database connections, in order. *)
Inductive DbEvent : Type :=
| DbOpened (path : string) (readonly : bool)
| DbQueried (sql : string)
| DbClosed (path : string).

(** Handle returned by [new Database(path, options)]. *)
Record Database : Type := mkDatabase {
  db_path : string;
  db_readonly : bool
}.

(** Mutable part of the host. *)
Record HostState : Type := mkHost {
  log : list LogEntry;               (* oldest first *)
  db_trace : list DbEvent;           (* oldest first *)
  pending_exec : list string;        (* commands whose callback is due *)
  uncaught : list JsError            (* exceptions that reached the event loop *)
}.

Definition initial_host : HostState :=
  {| log := []; db_trace := []; pending_exec := []; uncaught := [] |}.

(** ** The monad *)

Definition M (A : Type) : Type := World -> HostState -> Result A * HostState.

Definition ret {A : Type} (a : A) : M A := fun _ s => (Returned a, s).

Definition bind {A B : Type} (m : M A) (k : A -> M B) : M B :=
  fun w s =>
    match m w s with
    | (Returned a, s') => k a w s'
    | (Threw e, s') => (Threw e, s')
    end.

Definition throw {A : Type} (e : JsError) : M A := fun _ s => (Threw e, s).

(** [try { m } catch (error) { h error }] *)
Definition try_catch {A : Type} (m : M A) (h : JsError -> M A) : M A :=
  fun w s =>
    match m w s with
    | (Returned a, s') => (Returned a, s')
    | (Threw e, s') => h e w s'
    end.

(** [try { m } finally { f }]: [f] runs whatever [m] did; an exception of
    [f] replaces the completion of [m]. *)
Definition try_finally {A : Type} (m : M A) (f : M unit) : M A :=
  fun w s =>
    match m w s with
    | (r, s') =>
        match f w s' with
        | (Returned _, s'') => (r, s'')
        | (Threw e, s'') => (Threw e, s'')
        end
    end.

(** A pure completion used as a statement. *)
Definition lift {A : Type} (r : Result A) : M A := fun _ s => (r, s).

(** Read access to the environment. *)
Definition ask : M World := fun w s => (Returned w, s).

Declare Scope host_scope.
Delimit Scope host_scope with host.
Notation "x <- m ;; k" := (bind m (fun x => k))
  (at level 100, m at next level, right associativity) : host_scope.
Notation "m ;;; k" := (bind m (fun _ => k))
  (at level 100, k at level 200, right associativity) : host_scope.

(** ** Primitive services *)

Definition update_log (f : list LogEntry -> list LogEntry) (s : HostState)
  : HostState :=
  {| log := f (log s); db_trace := db_trace s;
     pending_exec := pending_exec s; uncaught := uncaught s |}.

Definition update_db_trace (f : list DbEvent -> list DbEvent) (s : HostState)
  : HostState :=
  {| log := log s; db_trace := f (db_trace s);
     pending_exec := pending_exec s; uncaught := uncaught s |}.

Definition update_pending (f : list string -> list string) (s : HostState)
  : HostState :=
  {| log := log s; db_trace := db_trace s;
     pending_exec := f (pending_exec s); uncaught := uncaught s |}.

Definition update_uncaught (f : list JsError -> list JsError) (s : HostState)
  : HostState :=
  {| log := log s; db_trace := db_trace s;
     pending_exec := pending_exec s; uncaught := f (uncaught s) |}.

(** [logService.info / warn / error] *)
Definition logService (lvl : Level) (text : string) (args : list jsval)
  : M unit :=
  fun _ s => (Returned tt, update_log (fun l => l ++ [mkLog lvl text args]) s).

(** [fs.existsSync(p)] *)
Definition existsSync (p : string) : M bool :=
  fun w s => (Returned (fs_exists w p), s).

(** [path.join] of a directory and two segments. *)
Definition path_sep (p : Platform) : string :=
  match p with
  | win32 => String (ascii_of_nat 92) EmptyString
  | _ => "/"
  end.

Definition path_join3 (w : World) (a b c : string) : string :=
  a ++ path_sep (platform w) ++ b ++ path_sep (platform w) ++ c.

(** ** SQLite driver (better-sqlite3) *)

(** The only statement the extension prepares. *)
Definition providers_query : string := "SELECT * FROM providers ORDER BY id".

(** [ORDER BY id]: rows by ascending identifier, rows with equal
    identifiers in storage order. *)
Fixpoint insert_by_id (r : Row) (sorted : list Row) : list Row :=
  match sorted with
  | [] => [r]
  | x :: rest =>
      if Z.leb (row_id r) (row_id x) then r :: x :: rest
      else x :: insert_by_id r rest
  end.

Definition order_by_id (rows : list Row) : list Row :=
  fold_right insert_by_id [] rows.

(** The order the statement asks for. *)
Definition id_le (a b : Row) : Prop := (row_id a <= row_id b)%Z.

(** [new Database(path, { readonly })] *)
Definition new_Database (path : string) (readonly : bool) : M Database :=
  fun w s =>
    match db_open_error w with
    | Some e => (Threw e, s)
    | None =>
        (Returned (mkDatabase path readonly),
         update_db_trace (fun t => t ++ [DbOpened path readonly]) s)
    end.

(** [db.prepare(sql).all()] *)
Definition db_prepare_all (db : Database) (sql : string) : M (list Row) :=
  fun w s =>
    let s' := update_db_trace (fun t => t ++ [DbQueried sql]) s in
    match db_query_error w with
    | Some e => (Threw e, s')
    | None =>
        if String.eqb sql providers_query
        then (Returned (order_by_id (providers_table w)), s')
        else (Threw (mkError "SqliteError: unsupported statement"), s')
    end.

(** [db.close()] *)
Definition db_close (db : Database) : M unit :=
  fun _ s =>
    (Returned tt, update_db_trace (fun t => t ++ [DbClosed (db_path db)]) s).

(** Connections opened and not yet closed, counted over a trace. *)
Fixpoint open_connections (t : list DbEvent) : Z :=
  match t with
  | [] => 0
  | DbOpened _ _ :: rest => 1 + open_connections rest
  | DbClosed _ :: rest => open_connections rest - 1
  | DbQueried _ :: rest => open_connections rest
  end%Z.

(** ** Process launcher (child_process.exec) and the event loop *)

(** [exec(command, callback)]: starts the command and returns at once;
    the callback is queued and runs in a later turn of the event loop. *)
Definition exec (command : string) : M unit :=
  fun w s =>
    match exec_spawn_error w with
    | Some e => (Threw e, s)
    | None => (Returned tt, update_pending (fun q => q ++ [command]) s)
    end.

(** One turn of the event loop for the oldest pending [exec] callback:
    the callback receives the launch error (or none); an exception that
    escapes it has no caller left and surfaces as an uncaught exception
    of the extension host. *)
Definition event_loop_turn (callback : option JsError -> M unit)
  (w : World) (s : HostState) : HostState :=
  match pending_exec s with
  | [] => s
  | command :: rest =>
      let s1 := update_pending (fun _ => rest) s in
      match callback (exec_exit_error w command) w s1 with
      | (Returned _, s2) => s2
      | (Threw e, s2) => update_uncaught (fun u => u ++ [e]) s2
      end
  end.

End Host.
Export Host.

(* ================================================================== *)
(** * CCSwitchService *)
(* ================================================================== *)

Module CCSwitch.

Local Open Scope host_scope.

(** [interface CCSwitchProvider].  The optional fields hold [VUndefined]
    when absent; the fields copied from a row keep whatever value the row
    held. *)
Record CCSwitchProvider : Type := mkProvider {
  id : Z;
  name : jsval;
  apiKey : jsval;
  baseUrl : jsval;
  isActive : bool;
  preset : jsval;
  models : jsval;
  createdAt : jsval;
  updatedAt : jsval
}.

(** [this.dbPath = path.join(os.homedir(), '.cc-switch', 'cc-switch.db')] *)
Definition dbPath (w : World) : string :=
  path_join3 w (homedir w) ".cc-switch" "cc-switch.db".

(** [isInstalled()] *)
Definition isInstalled : M bool :=
  w <- ask ;; existsSync (dbPath w).

(** [getDatabasePath()] *)
Definition getDatabasePath : M string :=
  w <- ask ;; ret (dbPath w).

(** [parseModels(modelsJson)]: [try { return JSON.parse(modelsJson) }
    catch { return undefined }] *)
Definition parseModels (w : World) (modelsJson : jsval) : jsval :=
  match JSON_parse w modelsJson with
  | Returned parsed => parsed
  | Threw _ => VUndefined
  end.

(** The object literal built for one row inside [rows.map(row => ...)]. *)
Definition rowToProvider (w : World) (row : Row) : CCSwitchProvider :=
  {| id := row_id row;
     name := js_or (row_name row) (VStr "Unknown");
     apiKey := js_or (row_api_key row) (VStr "");
     baseUrl := js_or (row_base_url row) VUndefined;
     isActive := strict_eq_num (row_is_active row) 1;
     preset := js_or (row_preset row) VUndefined;
     models := if truthy (row_models row)
               then parseModels w (row_models row)
               else VUndefined;
     createdAt := row_created_at row;
     updatedAt := row_updated_at row |}.

(** [getProviders()], with the callback of [rows.map] as a parameter, so
    that the exception handling around it can be stated for a callback
    that throws as well. *)
Definition getProvidersWith (rowCallback : Row -> Result CCSwitchProvider)
  : M (list CCSwitchProvider) :=
  installed <- isInstalled ;;
  if negb installed then
    logService Warn "[CCSwitchService] CC-Switch 未安装" [] ;;;
    ret []
  else
    try_catch
      (w <- ask ;;
       db <- new_Database (dbPath w) true ;;
       try_finally
         (rows <- db_prepare_all db providers_query ;;
          providers <- lift (array_map rowCallback rows) ;;
          logService Info "[CCSwitchService] 读取到 ${providers.length} 个 providers"
            [VNum (Z.of_nat (List.length providers))] ;;;
          ret providers)
         (db_close db))
      (fun error =>
         logService Error "[CCSwitchService] 读取 providers 失败:"
           [VStr (message error)] ;;;
         ret []).

(** [getProviders()] *)
Definition getProviders : M (list CCSwitchProvider) :=
  fun w => getProvidersWith (fun row => Returned (rowToProvider w row)) w.

(** The records of a read that goes through: one per row of the answer
    to the query. *)
Definition records_of (w : World) : list CCSwitchProvider :=
  map (rowToProvider w) (order_by_id (providers_table w)).

(** A record stands for a row and carries the defaults for its defective
    fields: the placeholder name when the row has no name, no mapping when
    the stored mapping does not parse. *)
Definition tolerates (w : World) (row : Row) (p : CCSwitchProvider) : Prop :=
  id p = row_id row /\
  (truthy (row_name row) = false -> name p = VStr "Unknown") /\
  (forall e, JSON_parse w (row_models row) = Threw e -> models p = VUndefined).

(** A record stands for a row and is active exactly when the row stores
    the number 1. *)
Definition flag_read (row : Row) (p : CCSwitchProvider) : Prop :=
  id p = row_id row /\
  (isActive p = true <-> row_is_active row = VNum 1).

(** The log lines of [getProviders()]. *)
Definition log_not_installed : LogEntry :=
  mkLog Warn "[CCSwitchService] CC-Switch 未安装" [].

Definition log_read_failed (e : JsError) : LogEntry :=
  mkLog Error "[CCSwitchService] 读取 providers 失败:" [VStr (message e)].

Definition log_read_count (n : nat) : LogEntry :=
  mkLog Info "[CCSwitchService] 读取到 ${providers.length} 个 providers"
    [VNum (Z.of_nat n)].

(** The database events of one read that opened a connection. *)
Definition read_session (w : World) : list DbEvent :=
  [DbOpened (dbPath w) true; DbQueried providers_query; DbClosed (dbPath w)].

(** Records by ascending identifier. *)
Definition ascending_ids (providers : list CCSwitchProvider) : Prop :=
  StronglySorted (fun p q => (id p <= id q)%Z) providers.

(** [getActiveProvider()]; [None] is [null]. *)
Definition getActiveProvider : M (option CCSwitchProvider) :=
  providers <- getProviders ;;
  let active := find isActive providers in
  match active with
  | Some p =>
      logService Info "[CCSwitchService] 当前活跃 provider: ${active.name}" [name p]
  | None =>
      logService Info "[CCSwitchService] 没有活跃的 provider" []
  end ;;;
  ret active.

(** ** Launching the companion application *)

Definition dq : string := String (ascii_of_nat 34) EmptyString.

(** The command line chosen from [process.platform]. *)
Definition launch_command (p : Platform) : string :=
  match p with
  | darwin =>
      "open -a " ++ dq ++ "CC-Switch" ++ dq ++ " || open -a "
        ++ dq ++ "cc-switch" ++ dq
  | win32 =>
      "start " ++ dq ++ dq ++ " " ++ dq ++ "CC-Switch.exe" ++ dq
        ++ " || start " ++ dq ++ dq ++ " " ++ dq ++ "cc-switch.exe" ++ dq
  | _ => "cc-switch || CC-Switch || flatpak run com.ccswitch.app"
  end.

Definition launch_failure_message : string :=
  "无法打开 CC-Switch，请确认应用已安装".

(** The callback handed to [exec]: [(error) => { if (error) { warn; throw }
    else { info } }]. *)
Definition exec_callback (error : option JsError) : M unit :=
  match error with
  | Some _ =>
      logService Warn "[CCSwitchService] 无法自动打开 CC-Switch, 请手动启动" [] ;;;
      throw (mkError launch_failure_message)
  | None =>
      logService Info "[CCSwitchService] 已打开 CC-Switch 应用" []
  end.

(** Body of [async openCCSwitch()]. *)
Definition openCCSwitch_body : M unit :=
  try_catch
    (w <- ask ;;
     let command := launch_command (platform w) in
     exec command)
    (fun error =>
       logService Error "[CCSwitchService] 打开 CC-Switch 失败:"
         [VStr (message error)] ;;;
       throw error).

(** [openCCSwitch()]: the promise handed to the caller.  The body has no
    [await], so the promise is settled when the call returns. *)
Definition openCCSwitch (w : World) (s : HostState)
  : Settled unit * HostState :=
  match openCCSwitch_body w s with
  | (r, s') => (settle r, s')
  end.

(** A call of [openCCSwitch()] followed by the turn of the event loop in
    which [exec] reports the outcome of the command. *)
Definition openCCSwitch_then_callback (w : World) (s : HostState)
  : Settled unit * HostState :=
  match openCCSwitch w s with
  | (promise, s') => (promise, event_loop_turn exec_callback w s')
  end.

(** [handleOpenCCSwitch] (handlers/ccSwitchHandlers.ts): awaits the promise
    and turns it into a response; [None] is [success: true], [Some msg] is
    [success: false] with the error message. *)
Definition handleOpenCCSwitch_response (promise : Settled unit)
  : option string :=
  match promise with
  | Fulfilled _ => None
  | Rejected e => Some (message e)
  end.

End CCSwitch.

(* ================================================================== *)
(** * FileWatcherService *)
(* ================================================================== *)

Module FileWatcher.

Local Open Scope Z_scope.

(** ['created' | 'modified' | 'deleted'] *)
Inductive ChangeType : Type := created | modified | deleted.

(** [interface FileChangeEvent] *)
Record FileChangeEvent : Type := mkChange {
  filePath : string;
  changeType : ChangeType;
  timestamp : Z                       (* new Date(), in ms since the epoch *)
}.

(** A raw event of the VS Code watcher as [handleChange] sees it: the
    arguments [uri] and [changeType], and the two readings of the wall
    clock taken while it is handled. *)
Record RawEvent : Type := mkRaw {
  uri_fsPath : string;
  raw_kind : ChangeType;
  clock_now : Z;                      (* Date.now() *)
  clock_date : Z                      (* new Date() *)
}.

(** The state closed over by [handleChange] for one call of [watchFile],
    together with what the instance has done so far. *)
Record Watch : Type := mkWatch {
  label : string;
  lastModTime : Z;
  callbacks : list FileChangeEvent;   (* invocations of [callback], oldest first *)
  watch_log : list LogEntry
}.

Definition debounceMs : Z := 500.

(** The string a change type is in the source. *)
Definition kind_name (k : ChangeType) : string :=
  match k with
  | created => "created"
  | modified => "modified"
  | deleted => "deleted"
  end.

(** [handleChange(uri, changeType)] *)
Definition handleChange (ev : RawEvent) (st : Watch) : Watch :=
  let now := clock_now ev in
  if now - lastModTime st <? debounceMs then st
  else
    let event :=
      {| filePath := uri_fsPath ev;
         changeType := raw_kind ev;
         timestamp := clock_date ev |} in
    {| label := label st;
       lastModTime := now;
       callbacks := callbacks st ++ [event];
       watch_log :=
         watch_log st ++
         [mkLog Info "[FileWatcherService] ${label} ${changeType}: ${uri.fsPath}"
            [VStr (label st); VStr (kind_name (raw_kind ev));
             VStr (uri_fsPath ev)]] |}.

(** The instance [watchFile] sets up: [let lastModTime = 0], no callback
    invoked yet. *)
Definition fresh_watch (lbl : string) : Watch :=
  {| label := lbl; lastModTime := 0; callbacks := [];
     watch_log :=
       [mkLog Info "[FileWatcherService] 开始监听 ${label}: ${filePath}"
          [VStr lbl]] |}.

(** [watchFile(filePath, label, callback)], given the directory of the
    file: [None] is the no-op disposable returned when the directory does
    not exist. *)
Definition watchFile (w : World) (dir : string) (lbl : string) : option Watch :=
  if negb (fs_exists w dir) then None
  else Some (fresh_watch lbl).

(** The change event built for a raw event. *)
Definition change_of (ev : RawEvent) : FileChangeEvent :=
  {| filePath := uri_fsPath ev;
     changeType := raw_kind ev;
     timestamp := clock_date ev |}.

(** The raw events of a sequence handled one after the other. *)
Definition deliver (evs : list RawEvent) (st : Watch) : Watch :=
  fold_left (fun acc ev => handleChange ev acc) evs st.

(** Whether the gate lets a raw event through in a given state. *)
Definition accepted (ev : RawEvent) (st : Watch) : bool :=
  negb (clock_now ev - lastModTime st <? debounceMs).

(** A raw event of a given kind arriving at time [t] (both clock readings
    equal to [t]). *)
Definition raw_at (t : Z) (kind : ChangeType) : RawEvent :=
  {| uri_fsPath := "/home/user/.claude/settings.json";
     raw_kind := kind; clock_now := t; clock_date := t |}.

End FileWatcher.

(* ================================================================== *)
(** * WebViewService *)
(* ================================================================== *)

Module WebView.

(** The service's fields and the traffic observed at its two ends.  A
    presentation surface ([vscode.Webview]) is named by a number. *)
Record Service : Type := mkService {
  webview : option nat;                  (* this.webview *)
  messageHandler : option nat;           (* this.messageHandler, by name *)
  posted : list (nat * jsval);           (* webview.postMessage(m) calls *)
  handled : list (nat * jsval)           (* messageHandler(m) calls *)
}.

(** A service right after construction. *)
Definition new_service : Service :=
  {| webview := None; messageHandler := None; posted := []; handled := [] |}.

(** [resolveWebviewView(webviewView, ...)], as far as the fields go:
    [this.webview = webviewView.webview]. *)
Definition resolveWebviewView (surface : nat) (st : Service) : Service :=
  {| webview := Some surface; messageHandler := messageHandler st;
     posted := posted st; handled := handled st |}.



(** The object literal [{ type: 'from-extension', message: message }]. *)
Definition envelope (msg : jsval) : jsval :=
  VObj [("type", VStr "from-extension"); ("message", msg)].

(** [postMessage(message)] *)
Definition postMessage (msg : jsval) (st : Service) : Result unit * Service :=
  match webview st with
  | None => (Threw (mkError "WebView not initialized"), st)
  | Some surface =>
      (Returned tt,
       {| webview := webview st; messageHandler := messageHandler st;
          posted := posted st ++ [(surface, envelope msg)];
          handled := handled st |})
  end.

End WebView.

(* ================================================================== *)
(** * Sample hosts *)
(* ================================================================== *)

Module Samples.

Import CCSwitch.

(** [{"haiku":"claude-haiku"}] *)
Definition models_text : string :=
  "{" ++ dq ++ "haiku" ++ dq ++ ":" ++ dq ++ "claude-haiku" ++ dq ++ "}".

(** [JSON.parse] on the texts that occur below: the one well-formed text
    parses to its object, the others are rejected with a SyntaxError. *)
Definition sample_JSON_parse (v : jsval) : Result jsval :=
  match v with
  | VStr s =>
      if String.eqb s models_text
      then Returned (VObj [("haiku", VStr "claude-haiku")])
      else Threw (mkError "SyntaxError: Unexpected token in JSON")
  | _ => Threw (mkError "SyntaxError: Unexpected token in JSON")
  end.

(** Three stored rows, not in identifier order: the second has no name and
    a mapping that is not JSON, the first and the third are flagged
    active. *)
Definition sample_rows : list Row :=
  [ {| row_id := 2; row_name := VStr "B"; row_api_key := VStr "sk-b";
       row_base_url := VNull; row_is_active := VNum 1;
       row_preset := VNull; row_models := VStr models_text;
       row_created_at := VStr "2025-01-02"; row_updated_at := VStr "2025-01-02" |};
    {| row_id := 1; row_name := VNull; row_api_key := VStr "sk-a";
       row_base_url := VStr "https://example.test"; row_is_active := VNum 0;
       row_preset := VNull; row_models := VStr "{not json";
       row_created_at := VStr "2025-01-01"; row_updated_at := VStr "2025-01-01" |};
    {| row_id := 3; row_name := VStr "C"; row_api_key := VNull;
       row_base_url := VNull; row_is_active := VNum 1;
       row_preset := VStr "custom"; row_models := VNull;
       row_created_at := VUndefined; row_updated_at := VUndefined |} ].

(** A Linux host on which cc-switch keeps a database but cannot be
    launched from the shell. *)
Definition sample_world : World :=
  {| platform := linux;
     homedir := "/home/user";
     fs_exists := fun p => String.eqb p "/home/user/.cc-switch/cc-switch.db";
     db_open_error := None;
     db_query_error := None;
     providers_table := sample_rows;
     JSON_parse := sample_JSON_parse;
     exec_spawn_error := None;
     exec_exit_error := fun _ => Some (mkError "Command failed: cc-switch") |}.

(** The same host without the database file. *)
Definition bare_world : World :=
  {| platform := linux;
     homedir := "/home/user";
     fs_exists := fun _ => false;
     db_open_error := None;
     db_query_error := None;
     providers_table := [];
     JSON_parse := sample_JSON_parse;
     exec_spawn_error := None;
     exec_exit_error := fun _ => Some (mkError "Command failed: cc-switch") |}.

(** A row that differs from a plain inactive row in [is_active] only. *)
Definition row_with_flag (i : Z) (flag : jsval) : Row :=
  {| row_id := i; row_name := VStr "P"; row_api_key := VStr "k";
     row_base_url := VNull; row_is_active := flag; row_preset := VNull;
     row_models := VNull; row_created_at := VNull; row_updated_at := VNull |}.

(** A host whose table holds one row per kind of stored flag. *)
Definition flags_world : World :=
  {| platform := linux;
     homedir := "/home/user";
     fs_exists := fun _ => true;
     db_open_error := None;
     db_query_error := None;
     providers_table :=
       [ row_with_flag 1 (VNum 1); row_with_flag 2 (VNum 0);
         row_with_flag 3 VNull; row_with_flag 4 (VNum 2);
         row_with_flag 5 (VBool true); row_with_flag 6 (VStr "1") ];
     JSON_parse := sample_JSON_parse;
     exec_spawn_error := None;
     exec_exit_error := fun _ => None |}.

(** A host whose database has no [providers] table: the query throws. *)
Definition broken_table_world : World :=
  {| platform := linux;
     homedir := "/home/user";
     fs_exists := fun _ => true;
     db_open_error := None;
     db_query_error := Some (mkError "SqliteError: no such table: providers");
     providers_table := [];
     JSON_parse := sample_JSON_parse;
     exec_spawn_error := None;
     exec_exit_error := fun _ => None |}.

(** A row callback that throws on every row. *)
Definition throwing_callback (row : Row) : Result CCSwitchProvider :=
  Threw (mkError "TypeError: cannot read the row").

(** A host on which the launch command succeeds. *)
Definition launching_world : World :=
  {| platform := darwin;
     homedir := "/Users/user";
     fs_exists := fun _ => true;
     db_open_error := None;
     db_query_error := None;
     providers_table := [];
     JSON_parse := sample_JSON_parse;
     exec_spawn_error := None;
     exec_exit_error := fun _ => None |}.

End Samples.

(* ================================================================== *)
(** * Request handlers (handlers/ccSwitchHandlers.ts) *)
(* ================================================================== *)

Module Handlers.

Import CCSwitch.

Local Open Scope host_scope.

(** The part of a provider that is sent to the WebView:
    [{ id, name, baseUrl }]. *)
Record ActiveProviderInfo : Type := mkInfo {
  info_id : Z;
  info_name : jsval;
  info_baseUrl : jsval
}.

(** [GetCCSwitchStatusResponse]; [activeProvider = None] is [null]. *)
Record GetCCSwitchStatusResponse : Type := mkStatus {
  status_type : string;
  installed : bool;
  activeProvider : option ActiveProviderInfo
}.

(** [handleGetCCSwitchStatus(_request, context)] *)
Definition handleGetCCSwitchStatus : M GetCCSwitchStatusResponse :=
  logService Info "[handleGetCCSwitchStatus] 获取 CC-Switch 状态" [] ;;;
  present <- isInstalled ;;
  active <-
    (if present then
       provider <- getActiveProvider ;;
       ret (match provider with
            | Some p => Some (mkInfo (id p) (name p) (baseUrl p))
            | None => None
            end)
     else ret None) ;;
  ret (mkStatus "get_ccswitch_status_response" present active).

(** [OpenCCSwitchResponse]; [failure = None] when [success] is true. *)
Record OpenCCSwitchResponse : Type := mkOpened {
  open_type : string;
  success : bool;
  failure : option string               (* the field [error] *)
}.

(** [handleOpenCCSwitch(_request, context)]: the promise of
    [openCCSwitch()] is settled when it is awaited, so the handler
    continues before any callback of [exec] runs. *)
Definition handleOpenCCSwitch (w : World) (s : HostState)
  : OpenCCSwitchResponse * HostState :=
  match logService Info "[handleOpenCCSwitch] 打开 CC-Switch 应用" [] w s with
  | (_, s1) =>
      match openCCSwitch w s1 with
      | (Fulfilled _, s2) =>
          (mkOpened "open_ccswitch_response" true None, s2)
      | (Rejected e, s2) =>
          match logService Error "[handleOpenCCSwitch] 打开失败:"
                  [VStr (message e)] w s2 with
          | (_, s3) =>
              (mkOpened "open_ccswitch_response" false (Some (message e)), s3)
          end
      end
  end.

(** Whether a row is flagged active, as [rowToProvider] reads it. *)
Definition flagged (row : Row) : bool := strict_eq_num (row_is_active row) 1.

(** Whether a read of the table goes through on a host. *)
Definition readable (w : World) : bool :=
  fs_exists w (dbPath w) &&
  match db_open_error w, db_query_error w with
  | None, None => true
  | _, _ => false
  end.

(** What the handler sends of a row that is read as the active one. *)
Definition info_of_row (w : World) (row : Row) : ActiveProviderInfo :=
  mkInfo (id (rowToProvider w row)) (name (rowToProvider w row))
    (baseUrl (rowToProvider w row)).

(** The fields with a default never hold another falsy value: the name is
    truthy, the key is truthy or the empty string, the base URL and the
    preset are truthy or [undefined]. *)
Definition normalised (p : CCSwitchProvider) : Prop :=
  truthy (name p) = true /\
  (apiKey p = VStr "" \/ truthy (apiKey p) = true) /\
  (baseUrl p = VUndefined \/ truthy (baseUrl p) = true) /\
  (preset p = VUndefined \/ truthy (preset p) = true).

(** A host with another content of the [providers] table. *)
Definition with_table (w : World) (table : list Row) : World :=
  {| platform := platform w;
     homedir := homedir w;
     fs_exists := fs_exists w;
     db_open_error := db_open_error w;
     db_query_error := db_query_error w;
     providers_table := table;
     JSON_parse := JSON_parse w;
     exec_spawn_error := exec_spawn_error w;
     exec_exit_error := exec_exit_error w |}.

(** A host on which [exec] itself throws. *)
Definition with_spawn_error (w : World) (e : JsError) : World :=
  {| platform := platform w;
     homedir := homedir w;
     fs_exists := fs_exists w;
     db_open_error := db_open_error w;
     db_query_error := db_query_error w;
     providers_table := providers_table w;
     JSON_parse := JSON_parse w;
     exec_spawn_error := Some e;
     exec_exit_error := exec_exit_error w |}.

End Handlers.

(* ================================================================== *)
(** * FileWatcherService: construction and the gate over a sequence *)
(* ================================================================== *)

Module WatcherSetup.

Import FileWatcher.

Local Open Scope host_scope.

(** The two fields set by the constructor. *)
Record FileWatcherService : Type := mkWatcherService {
  claudeSettingsPath : string;
  ccSwitchDbPath : string
}.

Definition settings_candidate (w : World) : string :=
  path_join3 w (homedir w) ".claude" "settings.json".

Definition fallback_candidate (w : World) : string :=
  path_join3 w (homedir w) ".claude" "claude.json".

(** [constructor(logService)] *)
Definition new_FileWatcherService : M FileWatcherService :=
  w <- ask ;;
  let settings := settings_candidate w in
  settings_there <- existsSync settings ;;
  claude <-
    (if negb settings_there then
       let altPath := fallback_candidate w in
       alt_there <- existsSync altPath ;;
       ret (if alt_there then altPath else settings)
     else ret settings) ;;
  let db := path_join3 w (homedir w) ".cc-switch" "cc-switch.db" in
  logService Info "[FileWatcherService] 已初始化" [] ;;;
  logService Info "[FileWatcherService] Claude 配置路径: ${this.claudeSettingsPath}"
    [VStr claude] ;;;
  logService Info "[FileWatcherService] CC-Switch 数据库路径: ${this.ccSwitchDbPath}"
    [VStr db] ;;;
  ret (mkWatcherService claude db).

(** The raw events of a sequence that pass the gate, in order. *)
Fixpoint accepted_events (evs : list RawEvent) (st : Watch) : list RawEvent :=
  match evs with
  | [] => []
  | ev :: rest =>
      if accepted ev st
      then ev :: accepted_events rest (handleChange ev st)
      else accepted_events rest st
  end.

(** Arrival times that are at least the debounce interval apart, the
    first one counted from [last]. *)
Fixpoint spaced (last : Z) (times : list Z) : Prop :=
  match times with
  | [] => True
  | t :: rest => (debounceMs <= t - last)%Z /\ spaced t rest
  end.

(** A list obtained from another by leaving elements out. *)
Inductive subsequence {A : Type} : list A -> list A -> Prop :=
| sub_nil : subsequence [] []
| sub_keep (x : A) (l1 l2 : list A) :
    subsequence l1 l2 -> subsequence (x :: l1) (x :: l2)
| sub_skip (x : A) (l1 l2 : list A) :
    subsequence l1 l2 -> subsequence l1 (x :: l2).

(** A burst: a first raw event and raw events that follow it within the
    debounce interval. *)
Definition sample_burst : list RawEvent :=
  [raw_at 1762041600000 created; raw_at 1762041600050 modified;
   raw_at 1762041600499 modified].

(** Raw events that are at least the debounce interval apart. *)
Definition sample_steady : list RawEvent :=
  [raw_at 1762041600000 created; raw_at 1762041600500 modified;
   raw_at 1762041601200 deleted].

End WatcherSetup.

(* ================================================================== *)
(** * WebViewService: the nonce and a run of posted messages *)
(* ================================================================== *)

Module WebViewMore.

Import WebView.

(** [possible] in [getNonce()] *)
Definition possible : string :=
  "ABCDEFGHIJKLMNOPQRSTUVWXYZabcdefghijklmnopqrstuvwxyz0123456789".

(** [s.charAt(i)] for an integral [i]: the character at the index, the
    empty string outside of the string. *)
Definition charAt (s : string) (i : Z) : string :=
  if (i <? 0)%Z then ""
  else match String.get (Z.to_nat i) s with
       | Some c => String c EmptyString
       | None => ""
       end.

(** The loop of [getNonce()] from iteration [i] on, [count] iterations
    left; [draw i] is the value of
    [Math.floor(Math.random() * possible.length)] in iteration [i]. *)
Fixpoint getNonce_loop (count i : nat) (draw : nat -> Z) (text : string)
  : string :=
  match count with
  | O => text
  | S remaining =>
      getNonce_loop remaining (S i) draw (text ++ charAt possible (draw i))
  end.

(** [getNonce()] *)
Definition getNonce (draw : nat -> Z) : string :=
  getNonce_loop 32 0 draw "".

(** Whether a drawn index lies inside [possible]. *)
Definition in_range (k : Z) : bool :=
  (0 <=? k)%Z && (k <? Z.of_nat (String.length possible))%Z.

(** [postMessage] called for each message of a list in turn; a call that
    throws leaves the service as it was. *)
Fixpoint post_each (msgs : list jsval) (st : Service) : Service :=
  match msgs with
  | [] => st
  | m :: rest => post_each rest (snd (postMessage m st))
  end.


End WebViewMore.

(* ================================================================== *)
(** * Properties of the provider reader *)
(* ================================================================== *)

Import CCSwitch.

Local Open Scope Z_scope.

(** ** The driver's [ORDER BY id] *)

Lemma insert_by_id_perm (r : Row) (l : list Row) :
  Permutation (r :: l) (insert_by_id r l).
Proof.
  induction l as [|x rest IH]; simpl.
  - apply Permutation_refl.
  - destruct (row_id r <=? row_id x).
    + apply Permutation_refl.
    + eapply perm_trans; [apply perm_swap|].
      now apply perm_skip.
Qed.

Lemma order_by_id_perm (rows : list Row) :
  Permutation rows (order_by_id rows).
Proof.
  induction rows as [|r rest IH]; simpl.
  - constructor.
  - eapply perm_trans; [apply perm_skip, IH|].
    apply insert_by_id_perm.
Qed.

Lemma insert_by_id_sorted (r : Row) (l : list Row) :
  StronglySorted id_le l -> StronglySorted id_le (insert_by_id r l).
Proof.
  induction 1 as [|x rest Hs IH Hall]; simpl.
  - repeat constructor.
  - destruct (Z.leb_spec (row_id r) (row_id x)) as [Hle|Hgt].
    + constructor; [now constructor|].
      constructor; [exact Hle|].
      eapply Forall_impl; [|exact Hall].
      unfold id_le; intros; lia.
    + constructor; [exact IH|].
      eapply Permutation_Forall; [apply insert_by_id_perm|].
      constructor; [unfold id_le; lia|exact Hall].
Qed.

Lemma order_by_id_sorted (rows : list Row) :
  StronglySorted id_le (order_by_id rows).
Proof.
  induction rows as [|r rest IH]; simpl.
  - constructor.
  - now apply insert_by_id_sorted.
Qed.

(** Rows stored with ascending identifiers come back in storage order. *)
Lemma order_by_id_fixes_sorted (rows : list Row) :
  StronglySorted id_le rows -> order_by_id rows = rows.
Proof.
  induction 1 as [|x rest Hs IH Hall]; simpl; [reflexivity|].
  rewrite IH. destruct rest as [|y rest']; [reflexivity|].
  simpl. inversion Hall as [|? ? Hxy _]; subst.
  unfold id_le in Hxy. apply Z.leb_le in Hxy. now rewrite Hxy.
Qed.

Lemma order_by_id_length (rows : list Row) :
  List.length (order_by_id rows) = List.length rows.
Proof. symmetry. apply Permutation_length, order_by_id_perm. Qed.

(** ** [rows.map] *)

Lemma array_map_total {A B : Type} (f : A -> B) (l : list A) :
  array_map (fun x => Returned (f x)) l = Returned (map f l).
Proof.
  induction l as [|x rest IH]; simpl; [reflexivity|now rewrite IH].
Qed.

(** ** The exits of [getProviders] *)

Section GetProvidersRuns.

Variable rowCallback : Row -> Result CCSwitchProvider.
Variables (w : World) (s : HostState).

Lemma getProvidersWith_absent :
  fs_exists w (dbPath w) = false ->
  getProvidersWith rowCallback w s =
  (Returned [], update_log (fun l => l ++ [log_not_installed]) s).
Proof.
  intros H. unfold getProvidersWith, isInstalled, bind, ask, existsSync.
  rewrite H. reflexivity.
Qed.

Lemma getProvidersWith_open_error (e : JsError) :
  fs_exists w (dbPath w) = true ->
  db_open_error w = Some e ->
  getProvidersWith rowCallback w s =
  (Returned [], update_log (fun l => l ++ [log_read_failed e]) s).
Proof.
  intros H Ho.
  unfold getProvidersWith, isInstalled, bind, ask, existsSync, try_catch,
    new_Database.
  rewrite H. simpl. rewrite Ho. reflexivity.
Qed.

Lemma getProvidersWith_query_error (e : JsError) :
  fs_exists w (dbPath w) = true ->
  db_open_error w = None ->
  db_query_error w = Some e ->
  getProvidersWith rowCallback w s =
  (Returned [],
   {| log := log s ++ [log_read_failed e];
      db_trace := db_trace s ++ read_session w;
      pending_exec := pending_exec s;
      uncaught := uncaught s |}).
Proof.
  intros H Ho Hq.
  unfold getProvidersWith, isInstalled, bind, ask, existsSync, try_catch,
    try_finally, new_Database, db_prepare_all, db_close.
  rewrite H. simpl. rewrite Ho. simpl. rewrite Hq. simpl.
  unfold logService, update_log, update_db_trace, ret, bind. simpl.
  unfold read_session. rewrite <- !app_assoc. reflexivity.
Qed.

Lemma getProvidersWith_callback_throws (e : JsError) :
  fs_exists w (dbPath w) = true ->
  db_open_error w = None ->
  db_query_error w = None ->
  array_map rowCallback (order_by_id (providers_table w)) = Threw e ->
  getProvidersWith rowCallback w s =
  (Returned [],
   {| log := log s ++ [log_read_failed e];
      db_trace := db_trace s ++ read_session w;
      pending_exec := pending_exec s;
      uncaught := uncaught s |}).
Proof.
  intros H Ho Hq Hm.
  unfold getProvidersWith, isInstalled, bind, ask, existsSync, try_catch,
    try_finally, new_Database, db_prepare_all, db_close, lift.
  rewrite H. simpl. rewrite Ho. simpl. rewrite Hq. simpl. rewrite Hm.
  unfold logService, update_log, update_db_trace, ret, bind. simpl.
  unfold read_session. rewrite <- !app_assoc. reflexivity.
Qed.

Lemma getProvidersWith_rows (providers : list CCSwitchProvider) :
  fs_exists w (dbPath w) = true ->
  db_open_error w = None ->
  db_query_error w = None ->
  array_map rowCallback (order_by_id (providers_table w)) = Returned providers ->
  getProvidersWith rowCallback w s =
  (Returned providers,
   {| log := log s ++ [log_read_count (List.length providers)];
      db_trace := db_trace s ++ read_session w;
      pending_exec := pending_exec s;
      uncaught := uncaught s |}).
Proof.
  intros H Ho Hq Hm.
  unfold getProvidersWith, isInstalled, bind, ask, existsSync, try_catch,
    try_finally, new_Database, db_prepare_all, db_close, lift.
  rewrite H. simpl. rewrite Ho. simpl. rewrite Hq. simpl. rewrite Hm.
  unfold logService, update_log, update_db_trace, ret, bind. simpl.
  unfold read_session. rewrite <- !app_assoc. reflexivity.
Qed.

End GetProvidersRuns.

(** ** What [getProviders] returns *)

Lemma rowToProvider_ascending (w : World) (rows : list Row) :
  StronglySorted id_le rows ->
  ascending_ids (map (rowToProvider w) rows).
Proof.
  unfold ascending_ids.
  induction 1 as [|x rest Hs IH Hall]; simpl; constructor.
  - exact IH.
  - apply Forall_map. exact Hall.
Qed.

Lemma rowToProvider_ids (w : World) (rows : list Row) :
  map id (map (rowToProvider w) rows) = map row_id rows.
Proof. rewrite map_map. reflexivity. Qed.

(** [getProviders] always returns: the records of the table when the file
    is there and both the driver calls succeed, no record otherwise. *)
Lemma getProviders_returns (w : World) (s : HostState) :
  exists s',
    getProviders w s =
    (Returned
       (if fs_exists w (dbPath w) then
          match db_open_error w, db_query_error w with
          | None, None => records_of w
          | _, _ => []
          end
        else []), s').
Proof.
  unfold getProviders.
  destruct (fs_exists w (dbPath w)) eqn:Hf.
  - destruct (db_open_error w) as [e|] eqn:Ho.
    + erewrite getProvidersWith_open_error by eassumption. eauto.
    + destruct (db_query_error w) as [e|] eqn:Hq.
      * erewrite getProvidersWith_query_error by eassumption. eauto.
      * erewrite getProvidersWith_rows; try eassumption; [eauto|].
        apply array_map_total.
  - rewrite getProvidersWith_absent by assumption. eauto.
Qed.

Lemma getProviders_ascending (w : World) (s : HostState) :
  exists providers s',
    getProviders w s = (Returned providers, s') /\ ascending_ids providers.
Proof.
  destruct (getProviders_returns w s) as [s' H].
  eexists; exists s'; split; [exact H|].
  destruct (fs_exists w (dbPath w)); [|constructor].
  destruct (db_open_error w); [constructor|].
  destruct (db_query_error w); [constructor|].
  apply rowToProvider_ascending, order_by_id_sorted.
Qed.

(** C2. [getProviders()] never throws.  It returns the provider records by
    ascending identifier: one record per stored row, in the order of
    [ORDER BY id], which is the storage (insertion) order whenever the rows
    were stored with ascending identifiers.  It returns the empty sequence
    when the database file is absent, when opening the database throws and
    when the query throws. *)
Theorem getProviders_ordered_or_empty (w : World) (s : HostState) :
  exists providers s',
    getProviders w s = (Returned providers, s') /\
    ascending_ids providers /\
    (fs_exists w (dbPath w) = false \/ db_open_error w <> None \/
     db_query_error w <> None -> providers = []) /\
    (fs_exists w (dbPath w) = true /\ db_open_error w = None /\
     db_query_error w = None ->
     providers = records_of w /\
     Permutation (map id providers) (map row_id (providers_table w)) /\
     (StronglySorted id_le (providers_table w) ->
      providers = map (rowToProvider w) (providers_table w))).
Proof.
  destruct (getProviders_ascending w s) as (providers & s' & Hrun & Hasc).
  exists providers, s'. split; [exact Hrun|]. split; [exact Hasc|].
  destruct (getProviders_returns w s) as [s'' Hret].
  rewrite Hret in Hrun. injection Hrun as Hp _. subst providers. split.
  - intros [Hf|[Ho|Hq]].
    + now rewrite Hf.
    + destruct (fs_exists w (dbPath w)); [|reflexivity].
      destruct (db_open_error w); [reflexivity|congruence].
    + destruct (fs_exists w (dbPath w)); [|reflexivity].
      destruct (db_open_error w); [reflexivity|].
      destruct (db_query_error w); [reflexivity|congruence].
  - intros (Hf & Ho & Hq). rewrite Hf, Ho, Hq. split; [reflexivity|]. split.
    + unfold records_of. rewrite rowToProvider_ids.
      apply Permutation_map, Permutation_sym, order_by_id_perm.
    + intros Hs. unfold records_of. now rewrite order_by_id_fixes_sorted.
Qed.

(** ** The active provider *)

Lemma find_first {A : Type} (f : A -> bool) (l : list A) (x : A) :
  find f l = Some x ->
  f x = true /\
  exists before after,
    l = before ++ x :: after /\ Forall (fun y => f y = false) before.
Proof.
  induction l as [|y rest IH]; simpl; [discriminate|].
  destruct (f y) eqn:Hy.
  - intros [= ->]. split; [exact Hy|]. exists [], rest. split; [reflexivity|constructor].
  - intros H. destruct (IH H) as (Hx & before & after & -> & Hall).
    split; [exact Hx|]. exists (y :: before), after.
    split; [reflexivity|]. now constructor.
Qed.

Lemma find_none_iff {A : Type} (f : A -> bool) (l : list A) :
  find f l = None <-> Forall (fun y => f y = false) l.
Proof.
  induction l as [|y rest IH]; simpl.
  - split; [constructor|reflexivity].
  - destruct (f y) eqn:Hy; split.
    + discriminate.
    + intros H. inversion H; subst. congruence.
    + intros H. constructor; [exact Hy|now apply IH].
    + intros H. inversion H; subst. now apply IH.
Qed.

Lemma StronglySorted_after {A : Type} (R : A -> A -> Prop)
  (before after : list A) (x : A) :
  StronglySorted R (before ++ x :: after) -> Forall (R x) after.
Proof.
  induction before as [|y rest IH]; simpl; intros H; inversion H; subst.
  - assumption.
  - now apply IH.
Qed.

Lemma getActiveProvider_run (w : World) (s : HostState)
  (providers : list CCSwitchProvider) (s1 : HostState) :
  getProviders w s = (Returned providers, s1) ->
  exists s2,
    getActiveProvider w s = (Returned (find isActive providers), s2) /\
    db_trace s2 = db_trace s1.
Proof.
  intros H. unfold getActiveProvider, bind. rewrite H.
  destruct (find isActive providers); unfold logService, ret; simpl;
    eexists; split; reflexivity.
Qed.

(** C3. [getActiveProvider()] returns the first record of [getProviders()]
    whose active flag is set, and none when no record is flagged.  With
    several records flagged it returns the flagged record that comes first
    in the ascending-identifier order: every record before it is inactive,
    and no flagged record has a smaller identifier. *)
Theorem getActiveProvider_first_flagged (w : World) (s : HostState) :
  exists providers s1 s2,
    getProviders w s = (Returned providers, s1) /\
    ascending_ids providers /\
    getActiveProvider w s = (Returned (find isActive providers), s2) /\
    (find isActive providers = None <->
     Forall (fun p => isActive p = false) providers) /\
    (forall p, find isActive providers = Some p ->
       isActive p = true /\
       (exists before after,
          providers = before ++ p :: after /\
          Forall (fun q => isActive q = false) before) /\
       (forall q, In q providers -> isActive q = true -> id p <= id q)).
Proof.
  destruct (getProviders_ascending w s) as (providers & s1 & Hrun & Hasc).
  destruct (getActiveProvider_run w s providers s1 Hrun) as (s2 & Hact & _).
  exists providers, s1, s2.
  repeat (split; [eassumption|]).
  split; [apply find_none_iff|].
  intros p Hfind.
  destruct (find_first _ _ _ Hfind) as (Hp & before & after & Heq & Hbefore).
  split; [exact Hp|]. split; [eauto|].
  intros q Hin Hq. rewrite Heq in Hin, Hasc.
  apply in_app_or in Hin. destruct Hin as [Hin|[<-|Hin]].
  - rewrite Forall_forall in Hbefore. specialize (Hbefore q Hin). congruence.
  - lia.
  - apply StronglySorted_after in Hasc.
    rewrite Forall_forall in Hasc. now apply Hasc.
Qed.

(** ** Field defects *)

Lemma rowToProvider_tolerates (w : World) (row : Row) :
  tolerates w row (rowToProvider w row).
Proof.
  unfold tolerates, rowToProvider, js_or, parseModels; simpl.
  split; [reflexivity|]. split.
  - intros H. now rewrite H.
  - intros e H. rewrite H. now destruct (truthy (row_models row)).
Qed.

Lemma Forall2_map_right {A B : Type} (P : A -> B -> Prop) (f : A -> B)
  (l : list A) :
  (forall x, P x (f x)) -> Forall2 P l (map f l).
Proof.
  intros H. induction l; simpl; constructor; auto.
Qed.

Lemma getProviders_reads_table (w : World) (s : HostState) :
  fs_exists w (dbPath w) = true ->
  db_open_error w = None ->
  db_query_error w = None ->
  exists s', getProviders w s = (Returned (records_of w), s').
Proof.
  intros Hf Ho Hq. destruct (getProviders_returns w s) as [s' H].
  rewrite Hf, Ho, Hq in H. eauto.
Qed.

(** C4. When the read goes through (the file is there, the database opens
    and the query answers), a row without a name or with a model mapping
    that is not valid JSON does not abort or shorten it: [getProviders()]
    returns one record per row of the table, in the order of the query,
    and the record of a defective row carries the default for the
    defective field, the name ['Unknown'] or no mapping. *)
Theorem getProviders_tolerates_field_defects (w : World) (s : HostState) :
  fs_exists w (dbPath w) = true ->
  db_open_error w = None ->
  db_query_error w = None ->
  exists providers s',
    getProviders w s = (Returned providers, s') /\
    Forall2 (tolerates w) (order_by_id (providers_table w)) providers /\
    List.length providers = List.length (providers_table w).
Proof.
  intros Hf Ho Hq.
  destruct (getProviders_reads_table w s Hf Ho Hq) as [s' H].
  exists (records_of w), s'. split; [exact H|]. split.
  - apply Forall2_map_right, rowToProvider_tolerates.
  - unfold records_of. rewrite length_map. apply order_by_id_length.
Qed.

(** The theorem at the sample host, whose second stored row has neither a
    name nor a mapping that parses. *)
Lemma getProviders_tolerates_field_defects_witness :
  exists providers s',
    getProviders Samples.sample_world initial_host = (Returned providers, s') /\
    Forall2 (tolerates Samples.sample_world)
      (order_by_id (providers_table Samples.sample_world)) providers /\
    List.length providers = List.length (providers_table Samples.sample_world).
Proof.
  apply (getProviders_tolerates_field_defects Samples.sample_world initial_host);
    reflexivity.
Defined.

(** What the sample read returns: three records by identifier; the first
    one named ['Unknown'] and without mapping. *)
Example sample_read :
  fst (getProviders Samples.sample_world initial_host) =
  Returned
    [ {| id := 1; name := VStr "Unknown"; apiKey := VStr "sk-a";
         baseUrl := VStr "https://example.test"; isActive := false;
         preset := VUndefined; models := VUndefined;
         createdAt := VStr "2025-01-01"; updatedAt := VStr "2025-01-01" |};
      {| id := 2; name := VStr "B"; apiKey := VStr "sk-b";
         baseUrl := VUndefined; isActive := true;
         preset := VUndefined;
         models := VObj [("haiku", VStr "claude-haiku")];
         createdAt := VStr "2025-01-02"; updatedAt := VStr "2025-01-02" |};
      {| id := 3; name := VStr "C"; apiKey := VStr "";
         baseUrl := VUndefined; isActive := true;
         preset := VStr "custom"; models := VUndefined;
         createdAt := VUndefined; updatedAt := VUndefined |} ].
Proof. vm_compute. reflexivity. Qed.

(** With two rows flagged, the flagged record of the smaller identifier is
    the active provider. *)
Example sample_active :
  option_map id
    match fst (getActiveProvider Samples.sample_world initial_host) with
    | Returned active => active
    | Threw _ => None
    end = Some 2.
Proof. vm_compute. reflexivity. Qed.

(** ** The store is absent *)

(** C5. Without the database file, [isInstalled()] returns false,
    [getProviders()] returns the empty sequence and [getActiveProvider()]
    returns none; each of the three returns (none throws), and no database
    connection is touched. *)
Theorem absent_database_degrades (w : World) (s : HostState) :
  fs_exists w (dbPath w) = false ->
  isInstalled w s = (Returned false, s) /\
  (exists s', getProviders w s = (Returned [], s') /\
              db_trace s' = db_trace s) /\
  (exists s', getActiveProvider w s = (Returned None, s') /\
              db_trace s' = db_trace s).
Proof.
  intros Hf.
  assert (Hget : getProviders w s =
                 (Returned [], update_log (fun l => l ++ [log_not_installed]) s)).
  { unfold getProviders. now apply getProvidersWith_absent. }
  split; [|split].
  - unfold isInstalled, bind, ask, existsSync. now rewrite Hf.
  - eexists. split; [exact Hget|reflexivity].
  - destruct (getActiveProvider_run w s _ _ Hget) as (s2 & Hact & Htrace).
    exists s2. split; [exact Hact|exact Htrace].
Qed.

Lemma absent_database_degrades_witness :
  isInstalled Samples.bare_world initial_host = (Returned false, initial_host) /\
  (exists s', getProviders Samples.bare_world initial_host = (Returned [], s') /\
              db_trace s' = db_trace initial_host) /\
  (exists s', getActiveProvider Samples.bare_world initial_host = (Returned None, s') /\
              db_trace s' = db_trace initial_host).
Proof.
  apply (absent_database_degrades Samples.bare_world initial_host).
  reflexivity.
Defined.

(** ** The connection *)

Lemma open_connections_app (a b : list DbEvent) :
  open_connections (a ++ b) = open_connections a + open_connections b.
Proof.
  induction a as [|ev rest IH]; cbn [open_connections app]; [reflexivity|].
  destruct ev; rewrite IH; lia.
Qed.

Lemma read_session_balanced (w : World) (t : list DbEvent) :
  open_connections (t ++ read_session w) = open_connections t.
Proof.
  rewrite open_connections_app. unfold read_session.
  cbn [open_connections]. lia.
Qed.

(** Every read that opens a connection goes through the same three
    database events, whatever the row callback does. *)
Lemma getProvidersWith_session
  (rowCallback : Row -> Result CCSwitchProvider) (w : World) (s : HostState) :
  fs_exists w (dbPath w) = true ->
  db_open_error w = None ->
  exists providers s',
    getProvidersWith rowCallback w s = (Returned providers, s') /\
    db_trace s' = db_trace s ++ read_session w.
Proof.
  intros Hf Ho.
  destruct (db_query_error w) as [e|] eqn:Hq.
  - erewrite getProvidersWith_query_error by eassumption.
    do 2 eexists. split; reflexivity.
  - destruct (array_map rowCallback (order_by_id (providers_table w)))
      as [providers|e] eqn:Hm.
    + erewrite getProvidersWith_rows by eassumption.
      do 2 eexists. split; reflexivity.
    + erewrite getProvidersWith_callback_throws by eassumption.
      do 2 eexists. split; reflexivity.
Qed.

(** C6. A call of [getProviders()] that opens the database opens it
    read-only and closes it before returning: the call adds exactly the
    events opened (read-only), queried, closed to the history of the
    database, so that as many connections are open after the call as
    before it.  This holds when the query throws, and it holds for every
    row callback in the place of the one of [getProviders()], a callback
    that throws included. *)
Theorem getProviders_closes_connection (w : World) (s : HostState) :
  fs_exists w (dbPath w) = true ->
  db_open_error w = None ->
  (exists providers s',
     getProviders w s = (Returned providers, s') /\
     db_trace s' =
       db_trace s ++ [DbOpened (dbPath w) true; DbQueried providers_query;
                      DbClosed (dbPath w)] /\
     open_connections (db_trace s') = open_connections (db_trace s)) /\
  (forall rowCallback : Row -> Result CCSwitchProvider,
   exists providers s',
     getProvidersWith rowCallback w s = (Returned providers, s') /\
     db_trace s' =
       db_trace s ++ [DbOpened (dbPath w) true; DbQueried providers_query;
                      DbClosed (dbPath w)] /\
     open_connections (db_trace s') = open_connections (db_trace s)).
Proof.
  intros Hf Ho.
  assert (Hall : forall rowCallback : Row -> Result CCSwitchProvider,
           exists providers s',
             getProvidersWith rowCallback w s = (Returned providers, s') /\
             db_trace s' = db_trace s ++ read_session w /\
             open_connections (db_trace s') = open_connections (db_trace s)).
  { intros cb.
    destruct (getProvidersWith_session cb w s Hf Ho) as (ps & s' & Hrun & Ht).
    exists ps, s'. split; [exact Hrun|]. split; [exact Ht|].
    rewrite Ht. apply read_session_balanced. }
  split; [|exact Hall].
  apply (Hall (fun row => Returned (rowToProvider w row))).
Qed.

Lemma getProviders_closes_connection_witness :
  (exists providers s',
     getProviders Samples.broken_table_world initial_host = (Returned providers, s') /\
     db_trace s' =
       db_trace initial_host ++
       [DbOpened (dbPath Samples.broken_table_world) true;
        DbQueried providers_query;
        DbClosed (dbPath Samples.broken_table_world)] /\
     open_connections (db_trace s') = open_connections (db_trace initial_host)) /\
  (forall rowCallback : Row -> Result CCSwitchProvider,
   exists providers s',
     getProvidersWith rowCallback Samples.broken_table_world initial_host =
       (Returned providers, s') /\
     db_trace s' =
       db_trace initial_host ++
       [DbOpened (dbPath Samples.broken_table_world) true;
        DbQueried providers_query;
        DbClosed (dbPath Samples.broken_table_world)] /\
     open_connections (db_trace s') = open_connections (db_trace initial_host)).
Proof.
  apply (getProviders_closes_connection Samples.broken_table_world initial_host);
    reflexivity.
Defined.

(** The three ways out of a read that opened the database, run on sample
    hosts: the read goes through, the query throws, the callback throws. *)
Example read_sessions :
  let path := "/home/user/.cc-switch/cc-switch.db" in
  let session := [DbOpened path true; DbQueried providers_query; DbClosed path] in
  db_trace (snd (getProviders Samples.sample_world initial_host)) = session /\
  getProviders Samples.broken_table_world initial_host =
    (Returned [],
     {| log := [mkLog Error "[CCSwitchService] 读取 providers 失败:"
                  [VStr "SqliteError: no such table: providers"]];
        db_trace := session; pending_exec := []; uncaught := [] |}) /\
  getProvidersWith Samples.throwing_callback Samples.sample_world initial_host =
    (Returned [],
     {| log := [mkLog Error "[CCSwitchService] 读取 providers 失败:"
                  [VStr "TypeError: cannot read the row"]];
        db_trace := session; pending_exec := []; uncaught := [] |}).
Proof. vm_compute. repeat split. Qed.

(** ** The active flag *)

Lemma strict_eq_one (v : jsval) :
  strict_eq_num v 1 = true <-> v = VNum 1.
Proof.
  destruct v; simpl; split; try discriminate.
  - intros H. apply Z.eqb_eq in H. now subst.
  - intros [= ->]. reflexivity.
Qed.

Lemma rowToProvider_flag (w : World) (row : Row) :
  flag_read row (rowToProvider w row).
Proof. split; [reflexivity|apply strict_eq_one]. Qed.

(** C9. In a read that goes through, the record of a row is active exactly
    when the row stores the number 1 in [is_active]; a row that stores
    anything else still gets its record, an inactive one. *)
Theorem isActive_iff_flag_is_one (w : World) (s : HostState) :
  fs_exists w (dbPath w) = true ->
  db_open_error w = None ->
  db_query_error w = None ->
  exists providers s',
    getProviders w s = (Returned providers, s') /\
    Forall2 flag_read (order_by_id (providers_table w)) providers.
Proof.
  intros Hf Ho Hq.
  destruct (getProviders_reads_table w s Hf Ho Hq) as [s' H].
  exists (records_of w), s'. split; [exact H|].
  apply Forall2_map_right, rowToProvider_flag.
Qed.

Lemma isActive_iff_flag_is_one_witness :
  exists providers s',
    getProviders Samples.flags_world initial_host = (Returned providers, s') /\
    Forall2 flag_read (order_by_id (providers_table Samples.flags_world)) providers.
Proof.
  apply (isActive_iff_flag_is_one Samples.flags_world initial_host); reflexivity.
Defined.

(** Stored flags 1, 0, NULL, 2, [true] and ["1"]: only the first row is
    read back active. *)
Example flags_read_back :
  match fst (getProviders Samples.flags_world initial_host) with
  | Returned providers => map (fun p => (id p, isActive p)) providers
  | Threw _ => []
  end = [(1, true); (2, false); (3, false); (4, false); (5, false); (6, false)].
Proof. vm_compute. reflexivity. Qed.

(** ** Launching the companion application *)

(** The promise of [openCCSwitch()] is rejected only when [exec] itself
    throws; otherwise it is fulfilled as soon as the command is started. *)
Lemma openCCSwitch_promise (w : World) (s : HostState) :
  fst (openCCSwitch w s) =
  match exec_spawn_error w with
  | Some e => Rejected e
  | None => Fulfilled tt
  end.
Proof.
  unfold openCCSwitch, openCCSwitch_body, try_catch, bind, ask, exec.
  destruct (exec_spawn_error w); reflexivity.
Qed.

(** C7, as the code has it.  When the launch command is started and then
    fails, the promise of [openCCSwitch()] is already fulfilled: the
    caller's [await] completes normally and [handleOpenCCSwitch] answers
    [success: true].  The error with the user-facing message is thrown
    inside the callback of [exec], where no caller is left to receive it,
    and ends up as an uncaught exception of the host, after the warning
    has been logged. *)
Theorem openCCSwitch_fulfilled_on_launch_failure
  (w : World) (s : HostState) (err : JsError) :
  exec_spawn_error w = None ->
  pending_exec s = [] ->
  exec_exit_error w (launch_command (platform w)) = Some err ->
  exists s',
    openCCSwitch_then_callback w s = (Fulfilled tt, s') /\
    handleOpenCCSwitch_response (fst (openCCSwitch_then_callback w s)) = None /\
    uncaught s' = uncaught s ++ [mkError launch_failure_message] /\
    log s' =
      log s ++
      [mkLog Warn "[CCSwitchService] 无法自动打开 CC-Switch, 请手动启动" []].
Proof.
  intros Hspawn Hpending Hexit.
  unfold openCCSwitch_then_callback, openCCSwitch, openCCSwitch_body,
    try_catch, bind, ask, exec.
  rewrite Hspawn. cbn [settle fst].
  unfold event_loop_turn, update_pending. cbn [pending_exec].
  rewrite Hpending. cbn [app]. rewrite Hexit.
  unfold exec_callback, bind, logService, throw, update_log, update_uncaught.
  cbn. eexists. repeat split.
Qed.

Lemma openCCSwitch_fulfilled_on_launch_failure_witness :
  exists s',
    openCCSwitch_then_callback Samples.sample_world initial_host =
      (Fulfilled tt, s') /\
    handleOpenCCSwitch_response
      (fst (openCCSwitch_then_callback Samples.sample_world initial_host)) = None /\
    uncaught s' = uncaught initial_host ++ [mkError launch_failure_message] /\
    log s' =
      log initial_host ++
      [mkLog Warn "[CCSwitchService] 无法自动打开 CC-Switch, 请手动启动" []].
Proof.
  apply (openCCSwitch_fulfilled_on_launch_failure Samples.sample_world
           initial_host (mkError "Command failed: cc-switch"));
    reflexivity.
Defined.

(** On success the callback writes one log line and nothing else. *)
Example openCCSwitch_success :
  openCCSwitch_then_callback Samples.launching_world initial_host =
  (Fulfilled tt,
   {| log := [mkLog Info "[CCSwitchService] 已打开 CC-Switch 应用" []];
      db_trace := []; pending_exec := []; uncaught := [] |}).
Proof. vm_compute. reflexivity. Qed.

(* ================================================================== *)
(** * Properties of the change watcher *)
(* ================================================================== *)

Import FileWatcher.

Lemma watchFile_fresh (w : World) (dir lbl : string) (st : Watch) :
  watchFile w dir lbl = Some st -> st = fresh_watch lbl.
Proof.
  unfold watchFile. destruct (fs_exists w dir); simpl; congruence.
Qed.

Lemma handleChange_cases (ev : RawEvent) (st : Watch) :
  handleChange ev st =
  if accepted ev st then
    {| label := label st;
       lastModTime := clock_now ev;
       callbacks := callbacks st ++ [change_of ev];
       watch_log :=
         watch_log st ++
         [mkLog Info "[FileWatcherService] ${label} ${changeType}: ${uri.fsPath}"
            [VStr (label st); VStr (kind_name (raw_kind ev));
             VStr (uri_fsPath ev)]] |}
  else st.
Proof.
  unfold handleChange, accepted.
  destruct (clock_now ev - lastModTime st <? debounceMs); reflexivity.
Qed.

Lemma accepted_iff (ev : RawEvent) (st : Watch) :
  accepted ev st = true <-> 500 <= clock_now ev - lastModTime st.
Proof.
  unfold accepted, debounceMs.
  destruct (Z.ltb_spec (clock_now ev - lastModTime st) 500); simpl;
    split; intros; try lia; try discriminate; reflexivity.
Qed.

Lemma rejected_iff (ev : RawEvent) (st : Watch) :
  accepted ev st = false <-> clock_now ev - lastModTime st < 500.
Proof.
  unfold accepted, debounceMs.
  destruct (Z.ltb_spec (clock_now ev - lastModTime st) 500); simpl;
    split; intros; try lia; try discriminate; reflexivity.
Qed.

Lemma deliver_snoc (before : list RawEvent) (ev : RawEvent) (st : Watch) :
  deliver (before ++ [ev]) st = handleChange ev (deliver before st).
Proof. unfold deliver. now rewrite fold_left_app. Qed.

(** The callbacks of an instance only ever grow. *)
Lemma callbacks_grow (evs : list RawEvent) (st : Watch) :
  exists more, callbacks (deliver evs st) = callbacks st ++ more.
Proof.
  revert st. induction evs as [|ev rest IH]; intros st.
  - exists []. now rewrite app_nil_r.
  - destruct (IH (handleChange ev st)) as [more Hmore].
    change (deliver (ev :: rest) st) with (deliver rest (handleChange ev st)).
    rewrite Hmore, handleChange_cases.
    destruct (accepted ev st); cbn [callbacks].
    + exists (change_of ev :: more). now rewrite <- app_assoc.
    + now exists more.
Qed.

(** C1, as the code has it.  The gate compares the arrival time of a raw
    event with the stored timestamp, which is 0 until an event has been
    accepted.  A raw event that arrives less than 500 ms after the stored
    timestamp is dropped: nothing changes, no callback.  Any other raw
    event sets the stored timestamp to its arrival time and invokes the
    callback exactly once, with a change event of the raw event's kind.
    In particular, on a new instance and with T at least 500 ms after the
    epoch, events at T and T + 200 ms invoke the callback once (for the
    event at T), and events at T and T + 600 ms invoke it twice. *)
Theorem debounce_gate (before : list RawEvent) (st0 : Watch) (ev : RawEvent) :
  let st := deliver before st0 in
  deliver (before ++ [ev]) st0 = handleChange ev st /\
  (clock_now ev - lastModTime st < 500 -> handleChange ev st = st) /\
  (500 <= clock_now ev - lastModTime st ->
   lastModTime (handleChange ev st) = clock_now ev /\
   callbacks (handleChange ev st) = callbacks st ++ [change_of ev] /\
   changeType (change_of ev) = raw_kind ev) /\
  (forall (lbl : string) (T : Z) (k1 k2 : ChangeType),
   500 <= T ->
   callbacks (deliver [raw_at T k1; raw_at (T + 200) k2] (fresh_watch lbl)) =
     [change_of (raw_at T k1)] /\
   callbacks (deliver [raw_at T k1; raw_at (T + 600) k2] (fresh_watch lbl)) =
     [change_of (raw_at T k1); change_of (raw_at (T + 600) k2)]).
Proof.
  intros st. split; [apply deliver_snoc|]. split; [|split].
  - intros H. apply rejected_iff in H.
    now rewrite handleChange_cases, H.
  - intros H. apply accepted_iff in H.
    rewrite handleChange_cases, H. repeat split.
  - intros lbl T k1 k2 HT.
    assert (H1 : accepted (raw_at T k1) (fresh_watch lbl) = true).
    { apply accepted_iff. simpl. lia. }
    split; unfold deliver; cbn [fold_left];
      rewrite (handleChange_cases (raw_at T k1)), H1.
    + rewrite handleChange_cases.
      match goal with |- context [accepted ?e ?s] =>
        assert (H2 : accepted e s = false) by (apply rejected_iff; simpl; lia)
      end.
      now rewrite H2.
    + rewrite handleChange_cases.
      match goal with |- context [accepted ?e ?s] =>
        assert (H2 : accepted e s = true) by (apply accepted_iff; simpl; lia)
      end.
      now rewrite H2.
Qed.

(** On a new instance, events that arrive 0 ms and 200 ms after the epoch
    invoke no callback at all, and of events at 0 ms and 600 ms only the
    second invokes it: the event at 0 ms is dropped, since 0 - 0 < 500. *)
Lemma debounce_epoch_counterexample :
  callbacks (deliver [raw_at 0 modified; raw_at 200 modified]
               (fresh_watch "Claude Settings")) = [] /\
  callbacks (deliver [raw_at 0 modified; raw_at 600 modified]
               (fresh_watch "Claude Settings")) =
    [change_of (raw_at 600 modified)].
Proof. split; reflexivity. Qed.

(** Away from the epoch the two scenarios come out as one and two
    callbacks. *)
Example debounce_scenarios :
  let t0 := 1762041600000 in
  map changeType
    (callbacks (deliver [raw_at t0 created; raw_at (t0 + 200) modified]
                  (fresh_watch "Claude Settings"))) = [created] /\
  map changeType
    (callbacks (deliver [raw_at t0 created; raw_at (t0 + 600) modified]
                  (fresh_watch "Claude Settings"))) = [created; modified].
Proof. split; reflexivity. Qed.

(** C10. On a newly registered instance the stored timestamp is 0, so the
    first raw event passes the gate whenever it arrives at least 500 ms
    after the epoch, and its callback fires.  From then on an event can
    only be dropped once a callback has fired on the instance. *)
Theorem first_event_accepted
  (lbl : string) (ev : RawEvent) (rest : list RawEvent) :
  500 <= clock_now ev ->
  lastModTime (fresh_watch lbl) = 0 /\
  accepted ev (fresh_watch lbl) = true /\
  callbacks (handleChange ev (fresh_watch lbl)) = [change_of ev] /\
  (forall before ev' after,
     ev :: rest = before ++ ev' :: after ->
     accepted ev' (deliver before (fresh_watch lbl)) = false ->
     exists others,
       callbacks (deliver before (fresh_watch lbl)) = change_of ev :: others).
Proof.
  intros Hnow.
  assert (Hacc : accepted ev (fresh_watch lbl) = true).
  { apply accepted_iff. simpl. lia. }
  split; [reflexivity|]. split; [exact Hacc|].
  assert (Hfirst : callbacks (handleChange ev (fresh_watch lbl)) = [change_of ev]).
  { now rewrite handleChange_cases, Hacc. }
  split; [exact Hfirst|].
  intros before ev' after Heq Hdrop.
  destruct before as [|ev0 before'].
  - simpl in Heq. injection Heq as <- _. simpl in Hdrop. congruence.
  - simpl in Heq. injection Heq as <- _.
    change (deliver (ev :: before') (fresh_watch lbl))
      with (deliver before' (handleChange ev (fresh_watch lbl))).
    destruct (callbacks_grow before' (handleChange ev (fresh_watch lbl)))
      as [more Hmore].
    rewrite Hmore, Hfirst. now exists more.
Qed.

Lemma first_event_accepted_witness :
  lastModTime (fresh_watch "CC-Switch Database") = 0 /\
  accepted (raw_at 1762041600000 modified) (fresh_watch "CC-Switch Database") = true /\
  callbacks (handleChange (raw_at 1762041600000 modified)
               (fresh_watch "CC-Switch Database")) =
    [change_of (raw_at 1762041600000 modified)] /\
  (forall before ev' after,
     raw_at 1762041600000 modified :: [raw_at 1762041600100 modified] =
       before ++ ev' :: after ->
     accepted ev' (deliver before (fresh_watch "CC-Switch Database")) = false ->
     exists others,
       callbacks (deliver before (fresh_watch "CC-Switch Database")) =
         change_of (raw_at 1762041600000 modified) :: others).
Proof.
  apply (first_event_accepted "CC-Switch Database"
           (raw_at 1762041600000 modified) [raw_at 1762041600100 modified]).
  simpl. lia.
Defined.

(* ================================================================== *)
(** * Properties of the presentation host *)
(* ================================================================== *)

Import WebView.

(** C8. [postMessage(payload)] throws exactly when no surface is bound,
    and then changes nothing.  With a surface bound it returns, and the
    surface receives one message, the object with the two fields [type],
    equal to ["from-extension"], and [message], equal to the payload as
    given; posting [{foo: 1}] delivers
    [{type: "from-extension", message: {foo: 1}}].  A new service has no
    surface bound, [resolveWebviewView] binds one. *)
Theorem postMessage_envelope (payload : jsval) (st : Service) :
  ((exists e st', postMessage payload st = (Threw e, st')) <->
   webview st = None) /\
  (webview st = None ->
   postMessage payload st = (Threw (mkError "WebView not initialized"), st)) /\
  (forall surface, webview st = Some surface ->
   exists st',
     postMessage payload st = (Returned tt, st') /\
     posted st' =
       posted st ++
       [(surface, VObj [("type", VStr "from-extension"); ("message", payload)])] /\
     webview st' = webview st /\ handled st' = handled st) /\
  (forall surface,
     snd (postMessage (VObj [("foo", VNum 1)])
            (resolveWebviewView surface new_service)) =
     {| webview := Some surface; messageHandler := None;
        posted :=
          [(surface,
            VObj [("type", VStr "from-extension");
                  ("message", VObj [("foo", VNum 1)])])];
        handled := [] |}) /\
  webview new_service = None /\
  (forall surface, webview (resolveWebviewView surface st) = Some surface).
Proof.
  unfold postMessage. repeat split.
  - intros (e & st' & H). destruct (webview st); [discriminate|reflexivity].
  - intros H. rewrite H. eauto.
  - intros H. now rewrite H.
  - intros surface H. rewrite H. eexists. repeat split.
Qed.

(* ================================================================== *)
(** * Further properties of the change watcher *)
(* ================================================================== *)

Import WatcherSetup.

Lemma handleChange_accepted (ev : RawEvent) (st : Watch) :
  accepted ev st = true ->
  lastModTime (handleChange ev st) = clock_now ev /\
  callbacks (handleChange ev st) = callbacks st ++ [change_of ev].
Proof. intros H. rewrite handleChange_cases, H. split; reflexivity. Qed.

Lemma handleChange_dropped (ev : RawEvent) (st : Watch) :
  accepted ev st = false -> handleChange ev st = st.
Proof. intros H. now rewrite handleChange_cases, H. Qed.

Lemma deliver_cons (ev : RawEvent) (rest : list RawEvent) (st : Watch) :
  deliver (ev :: rest) st = deliver rest (handleChange ev st).
Proof. reflexivity. Qed.

Lemma accepted_events_subsequence (evs : list RawEvent) (st : Watch) :
  subsequence (accepted_events evs st) evs.
Proof.
  revert st. induction evs as [|ev rest IH]; intros st; simpl.
  - constructor.
  - destruct (accepted ev st); constructor; apply IH.
Qed.

Lemma subsequence_length {A : Type} (l1 l2 : list A) :
  subsequence l1 l2 -> (List.length l1 <= List.length l2)%nat.
Proof. induction 1; simpl; lia. Qed.

Lemma callbacks_deliver (evs : list RawEvent) (st : Watch) :
  callbacks (deliver evs st) =
  callbacks st ++ map change_of (accepted_events evs st).
Proof.
  revert st. induction evs as [|ev rest IH]; intros st.
  - simpl. now rewrite app_nil_r.
  - rewrite deliver_cons, IH. simpl.
    destruct (accepted ev st) eqn:Hacc.
    + destruct (handleChange_accepted ev st Hacc) as [_ ->].
      simpl. now rewrite <- app_assoc.
    + now rewrite (handleChange_dropped ev st Hacc).
Qed.

(** X1. Whatever raw events an instance receives, the callback
    invocations it adds are the change events of a subsequence of them, in
    the order of arrival: no raw event is reported twice, none out of
    order, and nothing is reported that did not arrive.  In particular the
    number of invocations grows by at most the number of raw events. *)
Theorem callbacks_follow_raw_events (evs : list RawEvent) (st : Watch) :
  callbacks (deliver evs st) =
    callbacks st ++ map change_of (accepted_events evs st) /\
  subsequence (accepted_events evs st) evs /\
  (List.length (callbacks (deliver evs st)) <=
   List.length (callbacks st) + List.length evs)%nat.
Proof.
  split; [apply callbacks_deliver|]. split; [apply accepted_events_subsequence|].
  rewrite callbacks_deliver, length_app, length_map.
  pose proof (subsequence_length _ _ (accepted_events_subsequence evs st)).
  lia.
Qed.

Lemma last_cons {A : Type} (x d : A) (l : list A) :
  last (x :: l) d = last l x.
Proof.
  revert x d. induction l as [|y rest IH]; intros x d; [reflexivity|].
  change (last (x :: y :: rest) d) with (last (y :: rest) d).
  now rewrite !IH.
Qed.

(** X2. The events that pass the gate are at least 500 ms apart by the
    clock reading the gate takes, the first of them at least 500 ms after
    the timestamp the instance held before; and the timestamp the instance
    holds afterwards is the arrival time of the last event that passed
    (the old timestamp when none did). *)
Theorem accepted_events_are_spaced (evs : list RawEvent) (st : Watch) :
  spaced (lastModTime st) (map clock_now (accepted_events evs st)) /\
  lastModTime (deliver evs st) =
    last (map clock_now (accepted_events evs st)) (lastModTime st).
Proof.
  revert st. induction evs as [|ev rest IH]; intros st.
  - split; [exact I|reflexivity].
  - rewrite deliver_cons. simpl accepted_events.
    destruct (IH (handleChange ev st)) as [Hsp Hlast].
    destruct (accepted ev st) eqn:Hacc.
    + destruct (handleChange_accepted ev st Hacc) as [Hnow _].
      rewrite Hnow in Hsp, Hlast. split.
      * simpl. split; [|exact Hsp].
        apply accepted_iff in Hacc. unfold debounceMs. exact Hacc.
      * rewrite Hlast. simpl map. now rewrite last_cons.
    + rewrite (handleChange_dropped ev st Hacc) in *. split; assumption.
Qed.

Lemma deliver_all_dropped (evs : list RawEvent) (st : Watch) :
  Forall (fun e => clock_now e - lastModTime st < 500) evs ->
  deliver evs st = st.
Proof.
  induction 1 as [|ev rest Hev _ IH]; [reflexivity|].
  rewrite deliver_cons, handleChange_dropped; [exact IH|].
  now apply rejected_iff.
Qed.

(** X3. The gate fires on the leading edge of a burst.  When a raw event
    passes the gate and the raw events after it all arrive less than
    500 ms after it (earlier clock readings included), the callback is
    invoked for the first event only: the later events of the burst, the
    last one included, are never reported, and the stored timestamp stays
    at the first event. *)
Theorem burst_fires_once
  (ev : RawEvent) (burst : list RawEvent) (st : Watch) :
  500 <= clock_now ev - lastModTime st ->
  Forall (fun e => clock_now e - clock_now ev < 500) burst ->
  callbacks (deliver (ev :: burst) st) = callbacks st ++ [change_of ev] /\
  lastModTime (deliver (ev :: burst) st) = clock_now ev.
Proof.
  intros Hev Hburst. apply accepted_iff in Hev.
  destruct (handleChange_accepted ev st Hev) as [Hnow Hcb].
  rewrite deliver_cons, deliver_all_dropped; [now split|].
  now rewrite Hnow.
Qed.

Lemma burst_fires_once_witness :
  callbacks (deliver sample_burst (fresh_watch "Claude Settings")) =
    callbacks (fresh_watch "Claude Settings") ++
    [change_of (raw_at 1762041600000 created)] /\
  lastModTime (deliver sample_burst (fresh_watch "Claude Settings")) =
    clock_now (raw_at 1762041600000 created).
Proof.
  apply (burst_fires_once (raw_at 1762041600000 created)
           [raw_at 1762041600050 modified; raw_at 1762041600499 modified]
           (fresh_watch "Claude Settings")).
  - simpl. lia.
  - repeat constructor; simpl; lia.
Defined.

(** X4. Nothing is held back without cause: raw events that arrive at
    least 500 ms apart, the first at least 500 ms after the stored
    timestamp, are all reported, each once and in order. *)
Theorem spaced_events_all_fire (evs : list RawEvent) (st : Watch) :
  spaced (lastModTime st) (map clock_now evs) ->
  callbacks (deliver evs st) = callbacks st ++ map change_of evs /\
  accepted_events evs st = evs.
Proof.
  intros Hsp.
  assert (Hall : accepted_events evs st = evs).
  { revert st Hsp. induction evs as [|ev rest IH]; intros st Hsp; [reflexivity|].
    simpl in Hsp. destruct Hsp as [Hev Hrest]. unfold debounceMs in Hev.
    apply accepted_iff in Hev. simpl. rewrite Hev. f_equal. apply IH.
    now destruct (handleChange_accepted ev st Hev) as [-> _]. }
  split; [|exact Hall]. now rewrite callbacks_deliver, Hall.
Qed.

Lemma spaced_events_all_fire_witness :
  callbacks (deliver sample_steady (fresh_watch "CC-Switch Database")) =
    callbacks (fresh_watch "CC-Switch Database") ++
    map change_of sample_steady /\
  accepted_events sample_steady (fresh_watch "CC-Switch Database") =
    sample_steady.
Proof.
  apply (spaced_events_all_fire sample_steady (fresh_watch "CC-Switch Database")).
  simpl. unfold debounceMs. lia.
Defined.

(** X5. The constructor of the watcher service settles the settings path
    once: [settings.json] when that file exists, [claude.json] when only
    that one exists, and [settings.json] again when neither does.  So the
    path it keeps names an existing file exactly when one of the two files
    exists.  The database path it keeps is the one the provider reader
    opens. *)
Theorem settings_path_fallback (w : World) (s : HostState) :
  exists svc s',
    new_FileWatcherService w s = (Returned svc, s') /\
    (fs_exists w (settings_candidate w) = true ->
     claudeSettingsPath svc = settings_candidate w) /\
    (fs_exists w (settings_candidate w) = false ->
     fs_exists w (fallback_candidate w) = true ->
     claudeSettingsPath svc = fallback_candidate w) /\
    (fs_exists w (settings_candidate w) = false ->
     fs_exists w (fallback_candidate w) = false ->
     claudeSettingsPath svc = settings_candidate w) /\
    (fs_exists w (claudeSettingsPath svc) = true <->
     fs_exists w (settings_candidate w) = true \/
     fs_exists w (fallback_candidate w) = true) /\
    ccSwitchDbPath svc = dbPath w /\
    db_trace s' = db_trace s.
Proof.
  unfold new_FileWatcherService, bind, ask, existsSync, logService, ret.
  destruct (fs_exists w (settings_candidate w)) eqn:Hs; cbn [negb].
  - eexists. eexists. split; [reflexivity|]. cbn.
    repeat split; try congruence; auto.
  - destruct (fs_exists w (fallback_candidate w)) eqn:Ha.
    + eexists. eexists. split; [reflexivity|]. cbn.
      repeat split; try congruence; auto.
    + eexists. eexists. split; [reflexivity|]. cbn.
      repeat split; try congruence.
      intros [H|H]; congruence.
Qed.

(* ================================================================== *)
(** * Further properties of the provider reader *)
(* ================================================================== *)

Import Handlers.

Lemma find_map {A B : Type} (f : B -> bool) (g : A -> B) (l : list A) :
  find f (map g l) = option_map g (find (fun x => f (g x)) l).
Proof.
  induction l as [|x rest IH]; simpl; [reflexivity|].
  now destruct (f (g x)).
Qed.

Lemma readable_true (w : World) :
  readable w = true <->
  fs_exists w (dbPath w) = true /\ db_open_error w = None /\
  db_query_error w = None.
Proof.
  unfold readable.
  destruct (fs_exists w (dbPath w)), (db_open_error w), (db_query_error w);
    simpl; split; try discriminate; try tauto;
    intros (? & ? & ?); discriminate.
Qed.

Lemma getProviders_by_readable (w : World) (s : HostState) :
  exists s',
    getProviders w s =
      (Returned (if readable w then records_of w else []), s') /\
    open_connections (db_trace s') = open_connections (db_trace s) /\
    (fs_exists w (dbPath w) = false -> db_trace s' = db_trace s).
Proof.
  unfold readable, getProviders.
  destruct (fs_exists w (dbPath w)) eqn:Hf; cbn [andb].
  - destruct (db_open_error w) as [e|] eqn:Ho.
    + erewrite getProvidersWith_open_error by eassumption.
      eexists. split; [reflexivity|]. split; [reflexivity|discriminate].
    + destruct (db_query_error w) as [e|] eqn:Hq.
      * erewrite getProvidersWith_query_error by eassumption.
        eexists. split; [reflexivity|]. split; [|discriminate].
        apply read_session_balanced.
      * erewrite getProvidersWith_rows;
          [|eassumption|eassumption|eassumption|apply array_map_total].
        eexists. split; [reflexivity|]. split; [|discriminate].
        apply read_session_balanced.
  - rewrite getProvidersWith_absent by assumption.
    eexists. repeat split.
Qed.

(** The active provider in terms of the stored rows. *)
Lemma getActiveProvider_by_rows (w : World) (s : HostState) :
  exists s',
    getActiveProvider w s =
      (Returned
         (if readable w
          then option_map (rowToProvider w)
                 (find flagged (order_by_id (providers_table w)))
          else None), s') /\
    open_connections (db_trace s') = open_connections (db_trace s) /\
    (fs_exists w (dbPath w) = false -> db_trace s' = db_trace s).
Proof.
  destruct (getProviders_by_readable w s) as (s1 & Hrun & Hbal & Habs).
  destruct (getActiveProvider_run w s _ _ Hrun) as (s2 & Hact & Htrace).
  exists s2. rewrite Htrace. split; [|split; assumption].
  rewrite Hact. f_equal. f_equal.
  destruct (readable w); [|reflexivity].
  unfold records_of. rewrite find_map. reflexivity.
Qed.

Lemma find_flagged_least (rows : list Row) (row : Row) :
  find flagged (order_by_id rows) = Some row ->
  In row rows /\ row_is_active row = VNum 1 /\
  forall row', In row' rows -> row_is_active row' = VNum 1 ->
               row_id row <= row_id row'.
Proof.
  intros Hfind.
  destruct (find_first _ _ _ Hfind) as (Hflag & before & after & Heq & Hbefore).
  pose proof (order_by_id_perm rows) as Hperm.
  pose proof (order_by_id_sorted rows) as Hsorted.
  rewrite Heq in Hperm, Hsorted.
  split; [|split].
  - eapply Permutation_in; [apply Permutation_sym, Hperm|].
    apply in_or_app. right. now left.
  - now apply strict_eq_one.
  - intros row' Hin Hact.
    apply (Permutation_in _ Hperm) in Hin.
    apply in_app_or in Hin. destruct Hin as [Hin|[<-|Hin]].
    + rewrite Forall_forall in Hbefore. specialize (Hbefore row' Hin).
      apply strict_eq_one in Hact. unfold flagged in Hbefore. congruence.
    + lia.
    + apply StronglySorted_after in Hsorted.
      rewrite Forall_forall in Hsorted. now apply Hsorted.
Qed.

Lemma find_flagged_none (rows : list Row) :
  find flagged (order_by_id rows) = None <->
  Forall (fun row => row_is_active row <> VNum 1) rows.
Proof.
  rewrite find_none_iff. split; intros H.
  - eapply Permutation_Forall in H; [|apply Permutation_sym, order_by_id_perm].
    eapply Forall_impl; [|exact H]. intros row Hrow Habs.
    apply strict_eq_one in Habs. unfold flagged in Hrow. congruence.
  - eapply Permutation_Forall; [apply order_by_id_perm|].
    eapply Forall_impl; [|exact H]. intros row Hrow. unfold flagged.
    destruct (strict_eq_num (row_is_active row) 1) eqn:E; [|reflexivity].
    apply strict_eq_one in E. contradiction.
Qed.

(** X6. [getActiveProvider()] in terms of the stored rows.  It returns a
    provider exactly when the table can be read and some stored row holds
    the number 1 in [is_active]; the provider is then the record of such a
    row, the one with the least identifier among them, wherever the rows
    lie in the table.  The call leaves as many database connections open
    as it found. *)
Theorem active_provider_is_least_flagged_row (w : World) (s : HostState) :
  exists active s',
    getActiveProvider w s = (Returned active, s') /\
    open_connections (db_trace s') = open_connections (db_trace s) /\
    (active = None <->
     readable w = false \/
     Forall (fun row => row_is_active row <> VNum 1) (providers_table w)) /\
    (forall p, active = Some p ->
       exists row,
         In row (providers_table w) /\ row_is_active row = VNum 1 /\
         p = rowToProvider w row /\
         forall row', In row' (providers_table w) ->
                      row_is_active row' = VNum 1 ->
                      row_id row <= row_id row').
Proof.
  destruct (getActiveProvider_by_rows w s) as (s' & Hrun & Hbal & _).
  eexists. exists s'. split; [exact Hrun|]. split; [exact Hbal|].
  destruct (readable w).
  - split.
    + rewrite <- find_flagged_none.
      destruct (find flagged (order_by_id (providers_table w))); simpl;
        split; try discriminate; try (intros [?|?]; discriminate); auto.
    + intros p Hp.
      destruct (find flagged (order_by_id (providers_table w))) as [row|] eqn:Hf;
        [|discriminate].
      simpl in Hp. injection Hp as <-.
      destruct (find_flagged_least _ _ Hf) as (Hin & Hact & Hleast).
      exists row. auto.
  - split; [split; auto|discriminate].
Qed.

(** X7. [handleGetCCSwitchStatus] always answers.  [installed] tells
    whether the database file exists; [activeProvider] is [null] unless
    the table can be read and holds a flagged row, and is then the
    identifier, name and base URL of the flagged row with the least
    identifier.  The handler leaves no connection open, and does not touch
    the database when the file is absent. *)
Theorem handleGetCCSwitchStatus_answers (w : World) (s : HostState) :
  exists s',
    handleGetCCSwitchStatus w s =
      (Returned
         {| status_type := "get_ccswitch_status_response";
            installed := fs_exists w (dbPath w);
            activeProvider :=
              if readable w
              then option_map (info_of_row w)
                     (find flagged (order_by_id (providers_table w)))
              else None |}, s') /\
    open_connections (db_trace s') = open_connections (db_trace s) /\
    (fs_exists w (dbPath w) = false -> db_trace s' = db_trace s).
Proof.
  unfold handleGetCCSwitchStatus, bind at 1 2.
  unfold logService at 1, isInstalled, bind at 1, ask, existsSync.
  set (s0 := update_log _ s).
  destruct (fs_exists w (dbPath w)) eqn:Hf.
  - destruct (getActiveProvider_by_rows w s0) as (s' & Hrun & Hbal & _).
    unfold bind. rewrite Hrun. unfold ret. exists s'.
    split; [|split; [exact Hbal|discriminate]].
    f_equal. f_equal.
    destruct (readable w); [|reflexivity].
    now destruct (find flagged (order_by_id (providers_table w))).
  - unfold bind, ret. exists s0. split; [|split; reflexivity].
    f_equal. f_equal. unfold readable. now rewrite Hf.
Qed.


(** The two answers on sample hosts: the command fails after it was
    started, and [exec] throws. *)
Example handleOpenCCSwitch_answers :
  fst (handleOpenCCSwitch Samples.sample_world initial_host) =
    {| open_type := "open_ccswitch_response"; success := true;
       failure := None |} /\
  fst (handleOpenCCSwitch
         (with_spawn_error Samples.sample_world (mkError "spawn ENOMEM"))
         initial_host) =
    {| open_type := "open_ccswitch_response"; success := false;
       failure := Some "spawn ENOMEM" |}.
Proof. split; reflexivity. Qed.

Lemma rowToProvider_normalised (w : World) (row : Row) :
  normalised (rowToProvider w row).
Proof.
  unfold normalised, rowToProvider, js_or; cbn [name apiKey baseUrl preset].
  repeat split.
  - destruct (truthy (row_name row)) eqn:E; [exact E|reflexivity].
  - destruct (truthy (row_api_key row)) eqn:E; [right; exact E|now left].
  - destruct (truthy (row_base_url row)) eqn:E; [right; exact E|now left].
  - destruct (truthy (row_preset row)) eqn:E; [right; exact E|now left].
Qed.

(** X9. Every record [getProviders()] returns, on every host, has its
    defaulted fields normalised: the name is never empty or missing, a
    missing key is the empty string, and a missing, NULL or empty base URL
    or preset is [undefined] and no other falsy value. *)
Theorem getProviders_records_normalised (w : World) (s : HostState) :
  exists providers s',
    getProviders w s = (Returned providers, s') /\
    Forall normalised providers.
Proof.
  destruct (getProviders_by_readable w s) as (s' & Hrun & _).
  eexists. exists s'. split; [exact Hrun|].
  destruct (readable w); [|constructor].
  unfold records_of. apply Forall_map, Forall_forall.
  intros row _. apply rowToProvider_normalised.
Qed.

(** ** Storage order *)

Lemma sorted_head_least (x : Row) (l : list Row) (y : Row) :
  StronglySorted id_le (x :: l) -> In y (x :: l) -> row_id x <= row_id y.
Proof.
  intros Hs [<-|Hin]; [lia|].
  inversion Hs as [|? ? _ Hall]; subst.
  rewrite Forall_forall in Hall. now apply Hall.
Qed.

Lemma sorted_permutation_unique (l1 l2 : list Row) :
  StronglySorted id_le l1 ->
  StronglySorted id_le l2 ->
  Permutation l1 l2 ->
  NoDup (map row_id l1) ->
  l1 = l2.
Proof.
  revert l2. induction l1 as [|x rest1 IH]; intros l2 Hs1 Hs2 Hperm Hnodup.
  - apply Permutation_nil in Hperm. now subst.
  - destruct l2 as [|y rest2].
    + apply Permutation_sym, Permutation_nil in Hperm. discriminate.
    + assert (Hxy : x = y).
      { assert (Hy : In y (x :: rest1)).
        { eapply Permutation_in; [apply Permutation_sym, Hperm|now left]. }
        assert (Hx : In x (y :: rest2)).
        { eapply Permutation_in; [exact Hperm|now left]. }
        pose proof (sorted_head_least _ _ _ Hs1 Hy) as H1.
        pose proof (sorted_head_least _ _ _ Hs2 Hx) as H2.
        destruct Hy as [Hy|Hy]; [exact Hy|].
        exfalso. inversion Hnodup as [|? ? Hnotin _]; subst.
        apply Hnotin. replace (row_id x) with (row_id y) by lia.
        now apply in_map. }
      subst y. f_equal. apply IH.
      * now inversion Hs1.
      * now inversion Hs2.
      * eapply Permutation_cons_inv. exact Hperm.
      * now inversion Hnodup.
Qed.

(** X10. When the identifiers of the stored rows are pairwise different,
    what [getProviders()] returns does not depend on the order in which
    the table stores the rows: two hosts that differ only by a
    rearrangement of the table give the same sequence of records. *)
Theorem getProviders_ignores_storage_order
  (w : World) (s : HostState) (table1 table2 : list Row) :
  Permutation table1 table2 ->
  NoDup (map row_id table1) ->
  fst (getProviders (with_table w table1) s) =
  fst (getProviders (with_table w table2) s).
Proof.
  intros Hperm Hnodup.
  destruct (getProviders_by_readable (with_table w table1) s) as (s1 & H1 & _).
  destruct (getProviders_by_readable (with_table w table2) s) as (s2 & H2 & _).
  rewrite H1, H2. cbn [fst].
  change (readable (with_table w table2)) with (readable (with_table w table1)).
  destruct (readable (with_table w table1)); [|reflexivity].
  unfold records_of. cbn [providers_table with_table].
  change (rowToProvider (with_table w table2))
    with (rowToProvider (with_table w table1)).
  do 2 f_equal.
  apply sorted_permutation_unique.
  - apply order_by_id_sorted.
  - apply order_by_id_sorted.
  - eapply perm_trans; [apply Permutation_sym, order_by_id_perm|].
    eapply perm_trans; [exact Hperm|apply order_by_id_perm].
  - eapply Permutation_NoDup; [|exact Hnodup].
    apply Permutation_map, order_by_id_perm.
Qed.

Lemma getProviders_ignores_storage_order_witness :
  fst (getProviders (with_table Samples.sample_world Samples.sample_rows)
         initial_host) =
  fst (getProviders (with_table Samples.sample_world (rev Samples.sample_rows))
         initial_host).
Proof.
  apply (getProviders_ignores_storage_order Samples.sample_world initial_host
           Samples.sample_rows (rev Samples.sample_rows)).
  - apply Permutation_rev.
  - simpl. repeat constructor; simpl; intuition discriminate.
Defined.

(* ================================================================== *)
(** * Further properties of the presentation host *)
(* ================================================================== *)

Import WebViewMore.

Lemma chars_app (a b : string) :
  list_ascii_of_string (a ++ b) =
  list_ascii_of_string a ++ list_ascii_of_string b.
Proof. induction a as [|c rest IH]; simpl; [reflexivity|now rewrite IH]. Qed.

Lemma chars_length (a : string) :
  List.length (list_ascii_of_string a) = String.length a.
Proof. induction a as [|c rest IH]; simpl; [reflexivity|now rewrite IH]. Qed.

Lemma get_in_chars (s : string) (n : nat) (c : ascii) :
  String.get n s = Some c -> In c (list_ascii_of_string s).
Proof.
  revert n. induction s as [|d rest IH]; intros n; simpl; [discriminate|].
  destruct n as [|n].
  - intros [= ->]. now left.
  - intros H. right. eapply IH, H.
Qed.

Lemma get_some_iff (s : string) (n : nat) :
  (exists c, String.get n s = Some c) <-> (n < String.length s)%nat.
Proof.
  revert n. induction s as [|d rest IH]; intros n; simpl.
  - split; [intros [c H]; discriminate|lia].
  - destruct n as [|n].
    + split; [lia|eauto].
    + rewrite IH. lia.
Qed.

(** [charAt] gives one character of the string inside its bounds, and the
    empty string outside. *)
Lemma charAt_cases (k : Z) :
  (in_range k = true /\
   exists c, charAt possible k = String c EmptyString /\
             In c (list_ascii_of_string possible)) \/
  (in_range k = false /\ charAt possible k = "").
Proof.
  unfold in_range, charAt.
  destruct (Z.ltb_spec k 0) as [Hneg|Hpos].
  - right. split; [|reflexivity].
    destruct (Z.leb_spec 0 k); [lia|reflexivity].
  - destruct (Z.leb_spec 0 k) as [_|]; [|lia]. cbn [andb].
    destruct (String.get (Z.to_nat k) possible) as [c|] eqn:Hget.
    + left. split.
      * apply Z.ltb_lt.
        assert (Z.to_nat k < String.length possible)%nat
          by (apply get_some_iff; eauto).
        lia.
      * exists c. split; [reflexivity|]. eapply get_in_chars, Hget.
    + right. split; [|reflexivity].
      apply Z.ltb_ge.
      destruct (Nat.lt_ge_cases (Z.to_nat k) (String.length possible))
        as [Hlt|Hge]; [|lia].
      apply get_some_iff in Hlt. destruct Hlt as [c Hc]. congruence.
Qed.

Lemma getNonce_loop_chars (count i : nat) (draw : nat -> Z) (text : string) :
  list_ascii_of_string (getNonce_loop count i draw text) =
  list_ascii_of_string text ++
  flat_map (fun j => list_ascii_of_string (charAt possible (draw j)))
    (seq i count).
Proof.
  revert i text. induction count as [|count IH]; intros i text;
    cbn [getNonce_loop seq flat_map].
  - now rewrite app_nil_r.
  - rewrite IH, chars_app, <- app_assoc. reflexivity.
Qed.

Lemma drawn_chars_in_alphabet (draw : nat -> Z) (indices : list nat) :
  Forall (fun c => In c (list_ascii_of_string possible))
    (flat_map (fun j => list_ascii_of_string (charAt possible (draw j)))
       indices).
Proof.
  induction indices as [|j rest IH]; cbn [flat_map]; [constructor|].
  apply Forall_app. split; [|exact IH].
  destruct (charAt_cases (draw j)) as [(_ & c & -> & Hc)|(_ & ->)];
    cbn [list_ascii_of_string].
  - constructor; [exact Hc|constructor].
  - constructor.
Qed.

Lemma drawn_chars_count (draw : nat -> Z) (indices : list nat) :
  List.length
    (flat_map (fun j => list_ascii_of_string (charAt possible (draw j)))
       indices) =
  List.length (filter in_range (map draw indices)).
Proof.
  induction indices as [|j rest IH]; [reflexivity|].
  cbn [flat_map map filter]. rewrite length_app, IH.
  destruct (charAt_cases (draw j)) as [(-> & c & -> & _)|(-> & ->)];
    reflexivity.
Qed.

Lemma filter_all {A : Type} (f : A -> bool) (l : list A) :
  Forall (fun x => f x = true) l -> filter f l = l.
Proof.
  induction 1 as [|x rest Hx _ IH]; simpl; [reflexivity|].
  now rewrite Hx, IH.
Qed.

(** X11. [getNonce()] only ever produces characters of its alphabet, the
    upper- and lower-case letters and the digits, and at most 32 of them:
    one for each of the 32 drawn indices that lies inside the alphabet,
    since [charAt] gives the empty string for an index outside.  With all
    32 indices inside, from 0 to 61, the nonce has exactly 32
    characters. *)
Theorem getNonce_alphanumeric (draw : nat -> Z) :
  Forall (fun c => In c (list_ascii_of_string possible))
    (list_ascii_of_string (getNonce draw)) /\
  String.length (getNonce draw) =
    List.length (filter in_range (map draw (seq 0 32))) /\
  (String.length (getNonce draw) <= 32)%nat /\
  ((forall i, (i < 32)%nat -> 0 <= draw i < 62) ->
   String.length (getNonce draw) = 32%nat).
Proof.
  assert (Hlen : String.length (getNonce draw) =
                 List.length (filter in_range (map draw (seq 0 32)))).
  { rewrite <- chars_length. unfold getNonce.
    rewrite getNonce_loop_chars. cbn [list_ascii_of_string app].
    apply drawn_chars_count. }
  split; [|split; [exact Hlen|split]].
  - unfold getNonce. rewrite getNonce_loop_chars.
    cbn [list_ascii_of_string app]. apply drawn_chars_in_alphabet.
  - rewrite Hlen.
    etransitivity; [apply filter_length_le|].
    now rewrite length_map, length_seq.
  - intros Hrange. rewrite Hlen, filter_all.
    + now rewrite length_map, length_seq.
    + apply Forall_map, Forall_forall. intros i Hi.
      apply in_seq in Hi. specialize (Hrange i ltac:(lia)).
      unfold in_range. change (Z.of_nat (String.length possible)) with 62.
      apply andb_true_iff. split; [apply Z.leb_le|apply Z.ltb_lt]; lia.
Qed.

(** A nonce from indices that run through the alphabet, and one from
    indices that are all outside of it. *)
Example getNonce_samples :
  getNonce (fun i => Z.of_nat (2 * i)) = "ACEGIKMOQSUWYacegikmoqsuwy02468" /\
  getNonce (fun _ => 62) = "".
Proof. split; vm_compute; reflexivity. Qed.

Lemma postMessage_bound (m : jsval) (st : Service) (surface : nat) :
  webview st = Some surface ->
  webview (snd (postMessage m st)) = Some surface /\
  posted (snd (postMessage m st)) = posted st ++ [(surface, envelope m)] /\
  messageHandler (snd (postMessage m st)) = messageHandler st /\
  handled (snd (postMessage m st)) = handled st.
Proof.
  intros H. unfold postMessage. rewrite H. simpl. repeat split; auto.
Qed.

Lemma postMessage_unbound (m : jsval) (st : Service) :
  webview st = None -> snd (postMessage m st) = st.
Proof. intros H. unfold postMessage. now rewrite H. Qed.

(** X12. Messages posted one after the other to a bound surface reach it
    in the order posted, each in an envelope of its own, none left out or
    repeated, and the surface stays bound.  Messages posted while no
    surface is bound are not kept: binding a surface afterwards delivers
    none of them. *)
Theorem posted_messages_keep_order (msgs : list jsval) (st : Service) :
  (forall surface, webview st = Some surface ->
     posted (post_each msgs st) =
       posted st ++ map (fun m => (surface, envelope m)) msgs /\
     webview (post_each msgs st) = Some surface) /\
  (webview st = None ->
     post_each msgs st = st /\
     forall surface,
       posted (resolveWebviewView surface (post_each msgs st)) = posted st).
Proof.
  split.
  - revert st. induction msgs as [|m rest IH]; intros st surface Hb; simpl.
    + now rewrite app_nil_r.
    + destruct (postMessage_bound m st surface Hb) as (Hw & Hp & _).
      destruct (IH _ surface Hw) as [Hposted Hbound].
      rewrite Hposted, Hp, <- app_assoc. now split.
  - intros Hnone.
    assert (Hsame : post_each msgs st = st).
    { induction msgs as [|m rest IH]; simpl; [reflexivity|].
      now rewrite postMessage_unbound. }
    split; [exact Hsame|]. intros surface. now rewrite Hsame.
Qed.


